(** * Webflow CMS toolkit: the bulk import client and the importer

    A shallow embedding of [src/utils/webflow.js] ([WebflowClient]: the
    paginated listing, the create-only bulk import and the upsert
    reconciler) and of the importer component ([transformData], the dry-run
    preview and the dispatch of [runImport]), followed by the properties of
    the specification that concern them.

    The remote CMS is a deterministic machine over an arbitrary state
    [World]: every call takes the current state and yields the next one
    together with either an error message or response data.  Any sequence of
    answers, failures included, is the run of some such machine.  An
    [await] is a sequencing point; [setTimeout] delays and progress
    callbacks are recorded as events of the run. *)

From stdpp Require Import gmap strings list fin_maps sorting.
From Stdlib Require Import ZArith Lia.

Local Open Scope string_scope.
Local Open Scope list_scope.

(** ** JavaScript values and plain objects *)

(** The values a parsed CSV or JSON row can hold, as far as the client looks
    at them.  Numbers are kept as integers: the code only tests them for
    truthiness.  [VBuiltin k] is the member named [k] that every plain
    object inherits from [Object.prototype] (a function, or the prototype
    object itself for [__proto__]). *)
Inductive value : Type :=
  | VUndefined
  | VNull
  | VBool (b : bool)
  | VNum (n : Z)
  | VStr (s : string)
  | VBuiltin (name : string).

#[global] Instance value_eq_dec : EqDecision value.
Proof. solve_decision. Defined.

(** [ToBoolean]: what [if (v)], [v && ...] and [filter(Boolean)] test. *)
Definition truthy (v : value) : bool :=
  match v with
  | VUndefined | VNull => false
  | VBool b => b
  | VNum n => negb (n =? 0)%Z
  | VStr s => negb (String.eqb s "")
  | VBuiltin _ => true
  end.

(** The own properties of a plain object ([{}], a parsed row). *)
Abbreviation obj := (gmap string value).

(** The property names every plain object inherits. *)
Definition object_prototype_names : list string :=
  [ "constructor"; "toString"; "toLocaleString"; "valueOf";
    "hasOwnProperty"; "isPrototypeOf"; "propertyIsEnumerable";
    "__proto__"; "__defineGetter__"; "__defineSetter__";
    "__lookupGetter__"; "__lookupSetter__" ].

Definition inherited (k : string) : value :=
  if bool_decide (k ∈ object_prototype_names) then VBuiltin k else VUndefined.

(** [o[k]] and [o.k]: the own property, else the inherited one. *)
Definition get (o : obj) (k : string) : value :=
  match o !! k with
  | Some v => v
  | None => inherited k
  end.

(** [o[k] = v] on a plain object.  Assigning to [__proto__] never creates an
    own property: it is the inherited accessor, which at most swaps the
    prototype (and none of the prototypes it can install here defines [id]
    or [slug], the only names read back from such objects). *)
Definition set_prop (o : obj) (k : string) (v : value) : obj :=
  if bool_decide (k = "__proto__") then o else <[k := v]> o.

(** ** CMS items and the remote interface *)

(** An existing item as the listing returns it: [item.id] and
    [item.fieldData?.slug] ([None] when there is no field data or no slug). *)
Record item : Type := Item {
  item_id : string;
  item_slug : option string
}.

#[global] Instance item_eq_dec : EqDecision item.
Proof. solve_decision. Defined.

(** The calls [WebflowClient] sends through [request].
    - [GetItems c limit offset] is [GET /collections/c/items] with the query
      parameters that were set;
    - [CreateItem c fieldData isDraft] is [POST /collections/c/items] (with
      [/live] appended unless [isDraft]), body [{ fieldData }];
    - [UpdateItem c itemId fieldData isLive] is
      [PATCH /collections/c/items/itemId] (with [/live] appended when
      [isLive]), body [{ fieldData }]. *)
Inductive api_call : Type :=
  | GetItems (collectionId : string) (limit offset : option nat)
  | CreateItem (collectionId : string) (fieldData : obj) (isDraft : bool)
  | UpdateItem (collectionId : string) (itemId : value) (fieldData : obj)
      (isLive : bool).

#[global] Instance api_call_eq_dec : EqDecision api_call.
Proof. solve_decision. Defined.

Inductive action : Type := Updated | Created.

#[global] Instance action_eq_dec : EqDecision action.
Proof. solve_decision. Defined.

(** The argument objects of the [onProgress] callback. *)
Inductive progress : Type :=
  | Fetching
  | Found (existingCount : nat)
  | Processed (current total : nat).

(** How a statement completes: normally, or by a thrown [Error]. *)
Inductive completion (A : Type) : Type :=
  | Return (a : A)
  | Throw (message : string).
Arguments Return {A} a.
Arguments Throw {A} message.

Section Client.

(** The remote service, the JSON it answers with, and the [items] member
    of a listing answer ([None] when it is missing or falsy). *)
Context {World Data : Type}.
Variable remote : World -> api_call -> World * (string + Data).
Variable data_items : Data -> option (list item).

(** [ToPropertyKey] on a value that is not a string; a string is its own
    key. *)
Variable key_of_other : value -> string.

Definition toPropertyKey (v : value) : string :=
  match v with
  | VStr s => s
  | _ => key_of_other v
  end.

(** What a run leaves behind, in order. *)
Inductive event : Type :=
  | EvCall (c : api_call) (answer : string + Data)
  | EvDelay (ms : nat)
  | EvProgress (p : progress).

(** *** The monad of the client: state, exceptions, and the events *)

Definition M (A : Type) : Type :=
  World -> completion A * World * list event.

Definition ret {A} (a : A) : M A := fun w => (Return a, w, []).

Definition bind {A B} (m : M A) (k : A -> M B) : M B := fun w =>
  match m w with
  | (Return a, w1, t1) =>
      let '(r, w2, t2) := k a w1 in (r, w2, t1 ++ t2)
  | (Throw e, w1, t1) => (Throw e, w1, t1)
  end.

(** [try { m } catch (error) { h error.message }] *)
Definition try_catch {A} (m : M A) (h : string -> M A) : M A := fun w =>
  match m w with
  | (Return a, w1, t1) => (Return a, w1, t1)
  | (Throw e, w1, t1) =>
      let '(r, w2, t2) := h e w1 in (r, w2, t1 ++ t2)
  end.

Notation "x <- m ;; k" := (bind m (fun x => k))
  (at level 100, m at next level, right associativity).
Notation "m ;;; k" := (bind m (fun _ => k))
  (at level 100, right associativity).

(** [request]: one round trip; a response that is not ok, a network
    failure or an unreadable body all surface as a thrown [Error]. *)
Definition request (c : api_call) : M Data := fun w =>
  let '(w1, answer) := remote w c in
  (match answer with inl e => Throw e | inr d => Return d end,
   w1, [EvCall c answer]).

(** [await new Promise(resolve => setTimeout(resolve, ms))] *)
Definition sleep (ms : nat) : M unit := fun w => (Return tt, w, [EvDelay ms]).

(** [if (onProgress) onProgress(p)] for a callback that returns normally,
    as the one the importer passes does: [onProgress] says whether a
    callback was passed.  A callback that may throw is the subject of
    [upsertItems_calling] below, which agrees with [upsertItems] on the
    callbacks that return. *)
Definition notify (onProgress : bool) (p : progress) : M unit := fun w =>
  (Return tt, w, if onProgress then [EvProgress p] else []).

(** [if (options.limit) params.set('limit', options.limit)]: a zero is
    falsy and sets nothing. *)
Definition query_param (n : nat) : option nat :=
  if (n =? 0)%nat then None else Some n.

Definition getItems (collectionId : string) (limit offset : nat)
  : M (list item) :=
  data <- request (GetItems collectionId (query_param limit)
                     (query_param offset)) ;;
  ret (default [] (data_items data)).

Definition createItem (collectionId : string) (itemData : obj)
    (isDraft : bool) : M Data :=
  request (CreateItem collectionId itemData isDraft).

Definition updateItem (collectionId : string) (itemId : value)
    (itemData : obj) (isLive : bool) : M Data :=
  request (UpdateItem collectionId itemId itemData isLive).

(** *** getAllItems *)

Definition limit : nat := 100.

(** The [while (true)] loop, one iteration per unit of fuel; [None] when
    the fuel runs out before the loop has left. *)
Fixpoint getAllItems_loop (fuel : nat) (collectionId : string)
    (offset : nat) (allItems : list item) (w : World)
  : option (completion (list item) * World * list event) :=
  match fuel with
  | O => None
  | S fuel' =>
      match getItems collectionId limit offset w with
      | (Throw e, w1, t1) => Some (Throw e, w1, t1)
      | (Return items, w1, t1) =>
          let allItems := allItems ++ items in
          if (length items <? limit)%nat
          then Some (Return allItems, w1, t1)
          else
            let offset := offset + limit in
            let '(_, w2, t2) := sleep 150 w1 in
            match getAllItems_loop fuel' collectionId offset allItems w2 with
            | Some (r, w3, t3) => Some (r, w3, t1 ++ t2 ++ t3)
            | None => None
            end
      end
  end.

Definition getAllItems (fuel : nat) (collectionId : string) (w : World)
  : option (completion (list item) * World * list event) :=
  getAllItems_loop fuel collectionId 0 [] w.

(** *** Bulk operations *)

Record result_entry : Type := ResultEntry {
  r_index : nat;
  r_data : Data;
  r_action : action
}.

Record error_entry : Type := ErrorEntry {
  e_index : nat;
  e_error : string;
  e_item : obj
}.

(** One iteration of the loop of [createItems], on [items[i]].  The two
    arrays [results] and [errors] are threaded through the loop as [acc];
    nothing can throw after [results.push], so the pushed list is handed on
    at the end of the [try] block. *)
Definition createItems_step (collectionId : string) (isLive : bool)
    (n i : nat) (row : obj)
    (acc : list result_entry * list error_entry)
  : M (list result_entry * list error_entry) :=
  try_catch
    (result <- createItem collectionId row (negb isLive) ;;
     let results := acc.1 ++ [ResultEntry i result Created] in
     (if (i <? n - 1)%nat then sleep 150 else ret tt) ;;;
     ret (results, acc.2))
    (fun error => ret (acc.1, acc.2 ++ [ErrorEntry i error row])).

Fixpoint createItems_loop (collectionId : string) (isLive : bool)
    (n i : nat) (rows : list obj)
    (acc : list result_entry * list error_entry)
  : M (list result_entry * list error_entry) :=
  match rows with
  | [] => ret acc
  | row :: rest =>
      acc' <- createItems_step collectionId isLive n i row acc ;;
      createItems_loop collectionId isLive n (S i) rest acc'
  end.

Record create_report : Type := CreateReport {
  c_results : list result_entry;
  c_errors : list error_entry;
  c_total : nat
}.

Definition createItems (collectionId : string) (items : list obj)
    (isLive : bool) : M create_report :=
  acc <- createItems_loop collectionId isLive (length items) 0 items
           ([], []) ;;
  ret (CreateReport acc.1 acc.2 (length items)).

(** *** upsertItems *)

(** The two lookups built from the existing items: [slugToId], a plain
    object used as a map, and [idSet], a [Set]. *)
Definition build_lookups (existingItems : list item)
  : gmap string value * gset string :=
  fold_left
    (fun '(slugToId, idSet) it =>
       let slugToId :=
         match item_slug it with
         | Some slug =>
             if truthy (VStr slug)
             then set_prop slugToId slug (VStr (item_id it))
             else slugToId
         | None => slugToId
         end in
       (slugToId, {[ item_id it ]} ∪ idSet))
    existingItems (∅, ∅).

(** [idSet.has(v)]: only a string can be the same value as a member. *)
Definition idSet_has (idSet : gset string) (v : value) : bool :=
  match v with
  | VStr s => bool_decide (s ∈ idSet)
  | _ => false
  end.

(** "Determine the existing item ID to update": [null] when there is
    none. *)
Definition find_existing (slugToId : obj) (idSet : gset string)
    (itemId : value) (fieldData : obj) : value :=
  if truthy itemId && idSet_has idSet itemId then itemId
  else if truthy (get fieldData "slug")
            && truthy (get slugToId (toPropertyKey (get fieldData "slug")))
  then get slugToId (toPropertyKey (get fieldData "slug"))
  else VNull.

(** One iteration of the row loop of [upsertItems], on [items[i]]:
    [const { id: itemId, ...fieldData } = items[i]] reads [id] and copies
    the other own properties.  With a callback that returns, nothing throws
    after [results.push], and the pushed list is handed on at the end of
    the [try] block. *)
Definition upsertItems_step (slugToId : obj) (idSet : gset string)
    (collectionId : string) (isLive onProgress : bool)
    (n i : nat) (row : obj)
    (acc : list result_entry * list error_entry)
  : M (list result_entry * list error_entry) :=
  try_catch
    (let itemId := get row "id" in
     let fieldData := delete "id" row in
     let existingId := find_existing slugToId idSet itemId fieldData in
     res <-
        (if truthy existingId
         then result <- updateItem collectionId existingId fieldData isLive ;;
              ret (result, Updated)
         else result <- createItem collectionId fieldData (negb isLive) ;;
              ret (result, Created)) ;;
     let results := acc.1 ++ [ResultEntry i res.1 res.2] in
     notify onProgress (Processed (i + 1) n) ;;;
     (if (i <? n - 1)%nat then sleep 200 else ret tt) ;;;
     ret (results, acc.2))
    (fun error => ret (acc.1, acc.2 ++ [ErrorEntry i error row])).

Fixpoint upsertItems_loop (slugToId : obj) (idSet : gset string)
    (collectionId : string) (isLive onProgress : bool)
    (n i : nat) (rows : list obj)
    (acc : list result_entry * list error_entry)
  : M (list result_entry * list error_entry) :=
  match rows with
  | [] => ret acc
  | row :: rest =>
      acc' <- upsertItems_step slugToId idSet collectionId isLive
                onProgress n i row acc ;;
      upsertItems_loop slugToId idSet collectionId isLive onProgress
        n (S i) rest acc'
  end.

Record debug_info : Type := DebugInfo {
  existingCount : nat;
  existingIds : list string;
  existingSlugs : list (option string);
  incomingIds : list value;
  incomingSlugs : list value
}.

Record upsert_report : Type := UpsertReport {
  u_results : list result_entry;
  u_errors : list error_entry;
  u_total : nat;
  u_updated : nat;
  u_created : nat;
  u_debug : debug_info
}.

Definition has_action (a : action) (r : result_entry) : bool :=
  bool_decide (r_action r = a).

(** [upsertItems] once the existing items have been fetched. *)
Definition upsertItems_with (existingItems : list item)
    (collectionId : string) (items : list obj) (isLive onProgress : bool)
  : M upsert_report :=
  let '(slugToId, idSet) := build_lookups existingItems in
  notify onProgress (Found (length existingItems)) ;;;
  let _debug := {|
    existingCount := length existingItems;
    existingIds := item_id <$> take 5 existingItems;
    existingSlugs := item_slug <$> take 5 existingItems;
    incomingIds := List.filter truthy
                     ((fun i => get i "id") <$> take 5 items);
    incomingSlugs := List.filter truthy
                       ((fun i => get i "slug") <$> take 5 items)
  |} in
  acc <- upsertItems_loop slugToId idSet collectionId isLive onProgress
           (length items) 0 items ([], []) ;;
  let updated := length (List.filter (has_action Updated) acc.1) in
  let created := length (List.filter (has_action Created) acc.1) in
  ret (UpsertReport acc.1 acc.2 (length items) updated created _debug).

Definition upsertItems (fuel : nat) (collectionId : string)
    (items : list obj) (isLive onProgress : bool) (w : World)
  : option (completion upsert_report * World * list event) :=
  let '(_, w0, t0) := notify onProgress Fetching w in
  match getAllItems fuel collectionId w0 with
  | None => None
  | Some (Throw e, w1, t1) => Some (Throw e, w1, t0 ++ t1)
  | Some (Return existingItems, w1, t1) =>
      let '(r, w2, t2) :=
        upsertItems_with existingItems collectionId items isLive
          onProgress w1 in
      Some (r, w2, t0 ++ t1 ++ t2)
  end.

End Client.

Arguments event : clear implicits.
Arguments result_entry : clear implicits.
Arguments create_report : clear implicits.
Arguments upsert_report : clear implicits.

(** *** upsertItems with the caller's own progress callback *)

(** A progress callback as a caller may pass it: called with [p] it returns
    ([None]) or throws an [Error] with a message ([Some message]). *)
Definition callback : Type := progress -> option string.

Section ClientCallback.

Context {World Data : Type}.
Variable remote : World -> api_call -> World * (string + Data).
Variable data_items : Data -> option (list item).
Variable key_of_other : value -> string.

Notation "x <- m ;; k" := (bind m (fun x => k))
  (at level 100, m at next level, right associativity).
Notation "m ;;; k" := (bind m (fun _ => k))
  (at level 100, right associativity).

(** The row loop runs over the state of the remote together with the two
    arrays [results] and [errors] it pushes to: what was pushed before a
    throw is still there in the [catch]. *)
Definition arrays : Type := list (result_entry Data) * list error_entry.

Definition remote_with_arrays (s : World * arrays) (c : api_call)
  : (World * arrays) * (string + Data) :=
  let '(w1, answer) := remote s.1 c in ((w1, s.2), answer).

(** [results.push(r)] and [errors.push(e)] *)
Definition push_result (r : result_entry Data)
  : M (World := World * arrays) (Data := Data) unit :=
  fun s => (Return tt, (s.1, (s.2.1 ++ [r], s.2.2)), []).

Definition push_error (e : error_entry)
  : M (World := World * arrays) (Data := Data) unit :=
  fun s => (Return tt, (s.1, (s.2.1, s.2.2 ++ [e])), []).

(** [if (onProgress) onProgress(p)] *)
Definition call_onProgress {S : Type} (onProgress : option callback)
    (p : progress) : M (World := S) (Data := Data) unit :=
  fun s =>
    match onProgress with
    | None => (Return tt, s, [])
    | Some f =>
        (match f p with None => Return tt | Some message => Throw message end,
         s, [EvProgress p])
    end.

(** One iteration of the row loop, on [items[i]]. *)
Definition upsertItems_row (slugToId : obj) (idSet : gset string)
    (collectionId : string) (isLive : bool) (onProgress : option callback)
    (n i : nat) (row : obj)
  : M (World := World * arrays) (Data := Data) unit :=
  try_catch
    (let itemId := get row "id" in
     let fieldData := delete "id" row in
     let existingId :=
       find_existing key_of_other slugToId idSet itemId fieldData in
     res <-
        (if truthy existingId
         then result <- updateItem remote_with_arrays collectionId
                          existingId fieldData isLive ;;
              ret (result, Updated)
         else result <- createItem remote_with_arrays collectionId
                          fieldData (negb isLive) ;;
              ret (result, Created)) ;;
     push_result (ResultEntry i res.1 res.2) ;;;
     call_onProgress onProgress (Processed (i + 1) n) ;;;
     (if (i <? n - 1)%nat then sleep 200 else ret tt))
    (fun error => push_error (ErrorEntry i error row)).

Fixpoint upsertItems_rows (slugToId : obj) (idSet : gset string)
    (collectionId : string) (isLive : bool) (onProgress : option callback)
    (n i : nat) (rows : list obj)
  : M (World := World * arrays) (Data := Data) unit :=
  match rows with
  | [] => ret tt
  | row :: rest =>
      upsertItems_row slugToId idSet collectionId isLive onProgress n i row ;;;
      upsertItems_rows slugToId idSet collectionId isLive onProgress
        n (S i) rest
  end.

(** [upsertItems(collectionId, items, isLive, onProgress)] for any
    callback. *)
Definition upsertItems_calling (fuel : nat) (collectionId : string)
    (items : list obj) (isLive : bool) (onProgress : option callback)
    (w : World)
  : option (completion (upsert_report Data) * World * list (event Data)) :=
  match call_onProgress onProgress Fetching w with
  | (Throw e, w0, t0) => Some (Throw e, w0, t0)
  | (Return _, w0, t0) =>
      match getAllItems remote data_items fuel collectionId w0 with
      | None => None
      | Some (Throw e, w1, t1) => Some (Throw e, w1, t0 ++ t1)
      | Some (Return existingItems, w1, t1) =>
          let '(slugToId, idSet) := build_lookups existingItems in
          match call_onProgress onProgress (Found (length existingItems))
                  w1 with
          | (Throw e, w2, t2) => Some (Throw e, w2, t0 ++ t1 ++ t2)
          | (Return _, w2, t2) =>
              let _debug := {|
                existingCount := length existingItems;
                existingIds := item_id <$> take 5 existingItems;
                existingSlugs := item_slug <$> take 5 existingItems;
                incomingIds := List.filter truthy
                                 ((fun i => get i "id") <$> take 5 items);
                incomingSlugs := List.filter truthy
                                   ((fun i => get i "slug") <$> take 5 items)
              |} in
              match upsertItems_rows slugToId idSet collectionId isLive
                      onProgress (length items) 0 items (w2, ([], [])) with
              | (Throw e, s, t3) => Some (Throw e, s.1, t0 ++ t1 ++ t2 ++ t3)
              | (Return _, s, t3) =>
                  let results := s.2.1 in
                  let errors := s.2.2 in
                  let updated :=
                    length (List.filter (has_action Updated) results) in
                  let created :=
                    length (List.filter (has_action Created) results) in
                  Some (Return (UpsertReport results errors (length items)
                                  updated created _debug),
                        s.1, t0 ++ t1 ++ t2 ++ t3)
              end
          end
      end
  end.

End ClientCallback.

(** ** The importer component *)

(** [transformData]: [fieldMapping] is given by its [Object.entries], source
    column first, destination field slug second ([""] for "skip"). *)
Definition transformData (parsedData : list obj)
    (fieldMapping : list (string * string)) (isUpdateMode : bool)
  : list obj :=
  (fun row =>
     let transformed : obj := ∅ in
     let transformed :=
       if isUpdateMode && truthy (get row "id")
       then set_prop transformed "id" (get row "id")
       else transformed in
     fold_left
       (fun transformed '(source, target) =>
          if truthy (VStr target)
             && negb (bool_decide (get row source = VUndefined))
          then set_prop transformed target (get row source)
          else transformed)
       fieldMapping transformed) <$> parsedData.

(** The copying loop of [transformData] for one row. *)
Local Abbreviation copy_entries row :=
  (fold_left
     (fun (transformed : obj) '(source, target) =>
        if truthy (VStr target)
           && negb (bool_decide (get row source = VUndefined))
        then set_prop transformed target (get row source)
        else transformed)).

(** The object the dry-run branch of [runImport] hands to
    [setImportResults] ([mode: 'dry-run'], [errors: []]). *)
Record dry_run_report : Type := DryRunReport {
  d_total : nat;
  d_preview : list obj;
  d_success : nat;
  d_isUpdateMode : bool;
  itemsWithId : nat;
  itemsWithSlug : nat;
  itemsNew : Z
}.

Definition dry_run (transformedData : list obj) (isUpdateMode : bool)
  : dry_run_report :=
  let itemsWithId :=
    length (List.filter (fun d => truthy (get d "id")) transformedData) in
  let itemsWithSlug :=
    length (List.filter
              (fun d => truthy (get d "slug") && negb (truthy (get d "id")))
              transformedData) in
  let itemsNew :=
    (Z.of_nat (length transformedData) - Z.of_nat itemsWithId
     - Z.of_nat itemsWithSlug)%Z in
  {| d_total := length transformedData;
     d_preview := take 5 transformedData;
     d_success := length transformedData;
     d_isUpdateMode := isUpdateMode;
     itemsWithId := itemsWithId;
     itemsWithSlug := itemsWithSlug;
     itemsNew := itemsNew |}.

Section Importer.

Context {World Data : Type}.
Variable remote : World -> api_call -> World * (string + Data).
Variable data_items : Data -> option (list item).
Variable key_of_other : value -> string.

(** The [mode: 'live'] results of the two live branches. *)
Record live_report : Type := LiveReport {
  l_total : nat;
  l_success : nat;
  l_errors : list error_entry;
  l_preview : list Data;
  l_counts : option (nat * nat);
  l_isUpdateMode : bool;
  l_debug : option debug_info
}.

(** What a call of [runImport] leaves in the component state: nothing (the
    early return), [importResults], or [error]. *)
Inductive import_outcome : Type :=
  | NoImport
  | DryRun (r : dry_run_report)
  | Live (r : live_report)
  | ImportFailed (message : string).

Definition runImport (fuel : nat) (selectedCollection : option string)
    (parsedData : option (list obj)) (fieldMapping : list (string * string))
    (isDryRun isUpdateMode : bool) (dryRunOverride : value) (w : World)
  : option (import_outcome * World * list (event Data)) :=
  match selectedCollection, parsedData with
  | Some collectionId, Some (row :: rows) =>
      let dryRun :=
        if bool_decide (dryRunOverride = VUndefined) then isDryRun
        else truthy dryRunOverride in
      let transformedData :=
        transformData (row :: rows) fieldMapping isUpdateMode in
      if dryRun then
        Some (DryRun (dry_run transformedData isUpdateMode), w, [])
      else if isUpdateMode then
        match upsertItems remote data_items key_of_other fuel collectionId
                transformedData true true w with
        | None => None
        | Some (Throw e, w1, t) =>
            Some (ImportFailed ("Import failed: " +:+ e), w1, t)
        | Some (Return result, w1, t) =>
            Some (Live {|
              l_total := u_total result;
              l_success := length (u_results result);
              l_errors := u_errors result;
              l_preview := r_data <$> take 5 (u_results result);
              l_counts := Some (u_updated result, u_created result);
              l_isUpdateMode := true;
              l_debug := Some (u_debug result) |}, w1, t)
        end
      else
        match createItems remote collectionId transformedData true w with
        | (Throw e, w1, t) =>
            Some (ImportFailed ("Import failed: " +:+ e), w1, t)
        | (Return result, w1, t) =>
            Some (Live {|
              l_total := c_total result;
              l_success := length (c_results result);
              l_errors := c_errors result;
              l_preview := r_data <$> take 5 (c_results result);
              l_counts := None;
              l_isUpdateMode := false;
              l_debug := None |}, w1, t)
        end
  | _, _ => Some (NoImport, w, [])
  end.

End Importer.

(** *** The auto-mapping of [handleCollectionSelect] *)

(** A field of the collection schema, as far as the importer reads it:
    [f.slug] and [f.displayName] ([None] when there is no display name). *)
Record field : Type := Field {
  f_slug : string;
  f_displayName : option string
}.

Section AutoMapping.

(** [String.prototype.toLowerCase]. *)
Variable toLowerCase : string -> string.

(** The predicate of [details.fields?.find(...)] for one header. *)
Definition matches_header (header : string) (f : field) : bool :=
  bool_decide (toLowerCase (f_slug f) = toLowerCase header)
  || match f_displayName f with
     | Some displayName =>
         bool_decide (toLowerCase displayName = toLowerCase header)
     | None => false
     end.

(** "Auto-map fields with matching names": the object [autoMapping] after
    [headers.forEach]; [fields] is [details.fields] ([None] when the answer
    has none).  As for every plain object, assigning a string to
    [__proto__] creates no property. *)
Definition autoMapping (headers : list string) (fields : option (list field))
  : gmap string string :=
  fold_left
    (fun autoMapping header =>
       match fields ≫= find (matches_header header) with
       | Some matchingField =>
           if bool_decide (header = "__proto__") then autoMapping
           else <[header := f_slug matchingField]> autoMapping
       | None => autoMapping
       end)
    headers ∅.

End AutoMapping.

(** * Observing runs

    The vocabulary of the statements below: what a run sent and what it was
    answered, the rows of the specification's example, the classes of the
    dry run, and two concrete remotes to run the client against. *)

(** ** The worked example of the specification *)

Definition example_rows : list obj :=
  [ {[ "id" := VStr "a1"; "title" := VStr "X" ]};
    {[ "slug" := VStr "y"; "title" := VStr "Y" ]};
    {[ "title" := VStr "Z" ]} ].

Definition example_existing : list item :=
  [ Item "a1" None; Item "other" (Some "y") ].

(** ** The classes of the dry run *)

(** "has id", "has slug only", "neither", by the tests of the code. *)
Inductive row_class : Type := HasId | SlugOnly | Neither.

#[global] Instance row_class_eq_dec : EqDecision row_class.
Proof. solve_decision. Defined.

Definition classify (d : obj) : row_class :=
  if truthy (get d "id") then HasId
  else if truthy (get d "slug") then SlugOnly
  else Neither.

Definition count_class (c : row_class) (rows : list obj) : nat :=
  length (List.filter (fun d => bool_decide (classify d = c)) rows).

(** ** Concrete remotes *)

(** A remote that gives the answers of a script, one per call whatever the
    call is, and fails once the script is used up.  Its response data is the
    list of items a listing answer carries. *)
Definition scripted (w : list (string + list item)) (c : api_call)
  : list (string + list item) * (string + list item) :=
  match w with
  | [] => ([], inl "no answer")
  | answer :: w' => (w', answer)
  end.

(** A remote over a fixed collection: it pages through the collection and
    accepts every write. *)
Definition fixed_store (store : list item) (c : api_call)
  : list item * (string + list item) :=
  match c with
  | GetItems _ limit offset =>
      let rest := drop (default 0 offset) store in
      (store, inr (match limit with Some n => take n rest | None => rest end))
  | _ => (store, inr [])
  end.

Definition no_key (v : value) : string := "".

Definition two_rows : list obj :=
  [ {[ "title" := VStr "A" ]}; {[ "title" := VStr "B" ]} ].

(** The first write fails, the second succeeds. *)
Definition failing_script : list (string + list item) :=
  [ inr []; inl "Too Many Requests"; inr [] ].

Definition four_rows : list obj :=
  [ {[ "title" := VStr "A" ]}; {[ "title" := VStr "B" ]};
    {[ "title" := VStr "C" ]}; {[ "title" := VStr "D" ]} ].


(** A callback that throws when told of the second processed row:
    [p => { if (p.current === 2) throw new Error('render failed') }]. *)
Definition throwing_on_second : callback :=
  fun p =>
    match p with
    | Processed 2 _ => Some "render failed"
    | _ => None
    end.


(** A page of a hundred items. *)
Definition full_page : list item := replicate 100 (Item "p" None).

(** A collection of 201 items, and the three pages it is listed in. *)
Definition paged_pages : list (list item) :=
  [ replicate 100 (Item "a" None); replicate 100 (Item "b" None);
    [Item "z" None] ].

Definition paged_store : list item := concat paged_pages.

(** Two full pages, then the listing fails. *)
Definition broken_listing : list (string + list item) :=
  [ inr full_page; inr full_page; inl "Bad Gateway" ].

(** What [getAllItems] does against it. *)
Definition broken_listing_run : list (event (list item)) :=
  [ EvCall (GetItems "c" (Some 100) None) (inr full_page);
    EvDelay 150;
    EvCall (GetItems "c" (Some 100) (Some 100)) (inr full_page);
    EvDelay 150;
    EvCall (GetItems "c" (Some 100) (Some 200)) (inl "Bad Gateway") ].

Section Runs.

Context {World Data : Type}.
Variable remote : World -> api_call -> World * (string + Data).
Variable data_items : Data -> option (list item).
Variable key_of_other : value -> string.

Abbreviation event := (event Data).
Abbreviation result_entry := (result_entry Data).

(** The remote calls of a run with their answers, in order. *)
Definition calls (t : list event) : list (api_call * (string + Data)) :=
  omap (fun e => match e with EvCall c a => Some (c, a) | _ => None end) t.

(** The calls of [getAllItems], as opposed to those that write an item. *)
Definition is_listing (c : api_call) : bool :=
  match c with GetItems _ _ _ => true | _ => false end.

(** The writes of a run: the calls of the row loops. *)
Definition row_calls (t : list event) : list (api_call * (string + Data)) :=
  List.filter (fun ca => negb (is_listing ca.1)) (calls t).

(** The field payload a call carries. *)
Definition payload (c : api_call) : option obj :=
  match c with
  | GetItems _ _ _ => None
  | CreateItem _ fieldData _ | UpdateItem _ _ fieldData _ => Some fieldData
  end.

(** The answers the remote gives to a sequence of calls, from a state. *)
Fixpoint replay (w : World) (cs : list api_call)
  : list (string + Data) * World :=
  match cs with
  | [] => ([], w)
  | c :: cs' =>
      let '(w1, a) := remote w c in
      let '(answers, w2) := replay w1 cs' in
      (a :: answers, w2)
  end.

(** The entries a loop pushes for rows [i, i+1, ...] given the answer
    each row's call received. *)
Fixpoint successes (act : obj -> action) (i : nat) (rows : list obj)
    (answers : list (string + Data)) : list result_entry :=
  match rows, answers with
  | row :: rows', inr d :: answers' =>
      ResultEntry i d (act row) :: successes act (S i) rows' answers'
  | row :: rows', inl _ :: answers' => successes act (S i) rows' answers'
  | _, _ => []
  end.

Fixpoint failures (i : nat) (rows : list obj)
    (answers : list (string + Data)) : list error_entry :=
  match rows, answers with
  | row :: rows', inl e :: answers' =>
      ErrorEntry i e row :: failures (S i) rows' answers'
  | row :: rows', inr _ :: answers' => failures (S i) rows' answers'
  | _, _ => []
  end.

(** What one iteration of the upsert loop computes from its row: the
    existing identifier it settles on, the call it sends, and the action tag
    of the entry it pushes when the call succeeds. *)
Definition upsert_target (slugToId : obj) (idSet : gset string) (row : obj)
  : value :=
  find_existing key_of_other slugToId idSet (get row "id") (delete "id" row).

Definition upsert_call (slugToId : obj) (idSet : gset string)
    (collectionId : string) (isLive : bool) (row : obj) : api_call :=
  if truthy (upsert_target slugToId idSet row)
  then UpdateItem collectionId (upsert_target slugToId idSet row)
         (delete "id" row) isLive
  else CreateItem collectionId (delete "id" row) (negb isLive).

Definition upsert_action (slugToId : obj) (idSet : gset string) (row : obj)
  : action :=
  if truthy (upsert_target slugToId idSet row) then Updated else Created.

(** The call one iteration of the create-only loop sends. *)
Definition create_call (collectionId : string) (isLive : bool) (row : obj)
  : api_call :=
  CreateItem collectionId row (negb isLive).

(** The call [getItems] sends for the page at [offset]. *)
Definition page_call (collectionId : string) (offset : nat) : api_call :=
  GetItems collectionId (Some limit) (query_param offset).

(** [listing c offset w pages w'] : asked page after page from [offset] in
    state [w], the store answers with the full pages and then the first
    short page that make up [pages], and is left in state [w']. *)
Inductive listing (collectionId : string)
  : nat -> World -> list (list item) -> World -> Prop :=
  | listing_short offset w w1 d :
      remote w (page_call collectionId offset) = (w1, inr d) ->
      length (default [] (data_items d)) < limit ->
      listing collectionId offset w [default [] (data_items d)] w1
  | listing_full offset w w1 d pages w2 :
      remote w (page_call collectionId offset) = (w1, inr d) ->
      limit <= length (default [] (data_items d)) ->
      listing collectionId (offset + limit) w1 pages w2 ->
      listing collectionId offset w (default [] (data_items d) :: pages) w2.

(** The page a listing answer stands for ([data.items || []]). *)
Definition page_of (answer : string + Data) : list item :=
  match answer with
  | inr d => default [] (data_items d)
  | inl _ => []
  end.

(** The progress notifications and the waits of a run, in order. *)
Definition progress_of (t : list event) : list progress :=
  omap (fun e => match e with EvProgress p => Some p | _ => None end) t.

Definition delays_of (t : list event) : list nat :=
  omap (fun e => match e with EvDelay ms => Some ms | _ => None end) t.

(** [between x l]: the elements of [l] with [x] between neighbours. *)
Fixpoint between {A : Type} (x : A) (l : list A) : list A :=
  match l with
  | [] => []
  | a :: l' =>
      match l' with
      | [] => [a]
      | _ :: _ => a :: x :: between x l'
      end
  end.

(** The identifier a write is aimed at; none for a create. *)
Definition target_of (c : api_call) : option value :=
  match c with
  | UpdateItem _ itemId _ _ => Some itemId
  | _ => None
  end.

(** Whether a call is an update, and whether a call was answered without
    error. *)
Definition is_update (c : api_call) : bool :=
  match c with UpdateItem _ _ _ _ => true | _ => false end.

Definition answered (ca : api_call * (string + Data)) : bool :=
  match ca.2 with inr _ => true | inl _ => false end.

(** What a callback does when called with [p]: the message it throws, if
    any; and the event its call leaves. *)
Definition thrown (onProgress : option callback) (p : progress)
  : option string :=
  match onProgress with
  | Some f => f p
  | None => None
  end.

Definition passed (onProgress : option callback) : bool :=
  match onProgress with
  | Some _ => true
  | None => false
  end.

Definition notice (onProgress : option callback) (p : progress) : list event :=
  match onProgress with
  | Some _ => [EvProgress p]
  | None => []
  end.

(** The error entries the upsert loop pushes for rows [i, i+1, ...]: one for
    a row whose call failed, and one for a row whose call succeeded but
    whose progress callback threw. *)
Fixpoint failures_calling (onProgress : option callback) (n i : nat)
    (rows : list obj) (answers : list (string + Data)) : list error_entry :=
  match rows, answers with
  | row :: rows', inl e :: answers' =>
      ErrorEntry i e row :: failures_calling onProgress n (S i) rows' answers'
  | row :: rows', inr _ :: answers' =>
      match thrown onProgress (Processed (i + 1) n) with
      | Some e =>
          ErrorEntry i e row
          :: failures_calling onProgress n (S i) rows' answers'
      | None => failures_calling onProgress n (S i) rows' answers'
      end
  | _, _ => []
  end.

(** The run of the upsert loop over rows [i, i+1, ...], rebuilt from its
    calls: each call; after a call that succeeded, the progress notice; and
    after that, when the callback returned and the row is not the last, the
    wait. *)
Fixpoint upsert_events (onProgress : option callback) (n i : nat)
    (cas : list (api_call * (string + Data))) : list event :=
  match cas with
  | [] => []
  | ca :: rest =>
      EvCall ca.1 ca.2
      :: (if answered ca
          then notice onProgress (Processed (i + 1) n)
               ++ (match thrown onProgress (Processed (i + 1) n) with
                   | Some _ => []
                   | None => if (i <? n - 1)%nat then [EvDelay 200] else []
                   end)
          else [])
      ++ upsert_events onProgress n (S i) rest
  end.

(** The run of the create-only loop over rows [i, i+1, ...], rebuilt from
    its calls: each call, and after a call that succeeded on a row that is
    not the last, the wait. *)
Fixpoint create_events (n i : nat) (cas : list (api_call * (string + Data)))
  : list event :=
  match cas with
  | [] => []
  | ca :: rest =>
      EvCall ca.1 ca.2
      :: (if answered ca && (i <? n - 1)%nat then [EvDelay 150] else [])
      ++ create_events n (S i) rest
  end.

(** [full_pages c offset w pages w'] : asked page after page from [offset]
    in state [w], the store answers with the full pages [pages] and is left
    in state [w']. *)
Inductive full_pages (collectionId : string)
  : nat -> World -> list (list item) -> World -> Prop :=
  | full_pages_nil offset w : full_pages collectionId offset w [] w
  | full_pages_cons offset w w1 d pages w2 :
      remote w (page_call collectionId offset) = (w1, inr d) ->
      limit <= length (default [] (data_items d)) ->
      full_pages collectionId (offset + limit) w1 pages w2 ->
      full_pages collectionId offset w
        (default [] (data_items d) :: pages) w2.

(** * Properties *)

Lemma calls_app t1 t2 : calls (t1 ++ t2) = calls t1 ++ calls t2.
Proof. apply omap_app. Qed.

Lemma length_replay cs : forall w, length (replay w cs).1 = length cs.
Proof.
  induction cs as [|c cs IH]; intros w; simpl; [done|].
  destruct (remote w c) as [w1 a]. specialize (IH w1).
  destruct (replay w1 cs). simpl in *. by rewrite IH.
Qed.

(** *** The bookkeeping, as list facts *)

Lemma successes_lower act rows : forall i answers,
  Forall (fun r => i <= r_index r) (successes act i rows answers).
Proof.
  induction rows as [|row rows IH]; intros i [|[e|d] answers]; simpl;
    try by constructor.
  - eapply Forall_impl; [apply IH|]. simpl. lia.
  - constructor; [simpl; lia|].
    eapply Forall_impl; [apply IH|]. simpl. lia.
Qed.

Lemma failures_lower rows : forall i answers,
  Forall (fun r => i <= e_index r) (failures i rows answers).
Proof.
  induction rows as [|row rows IH]; intros i [|[e|d] answers]; simpl;
    try by constructor.
  - constructor; [simpl; lia|].
    eapply Forall_impl; [apply IH|]. simpl. lia.
  - eapply Forall_impl; [apply IH|]. simpl. lia.
Qed.

Lemma successes_sorted act rows : forall i answers,
  StronglySorted lt (r_index <$> successes act i rows answers).
Proof.
  induction rows as [|row rows IH]; intros i [|[e|d] answers]; simpl;
    try by constructor.
  - apply IH.
  - constructor; [apply IH|].
    apply Forall_fmap.
    eapply Forall_impl; [apply (successes_lower act rows (S i))|].
    simpl. lia.
Qed.

Lemma failures_sorted rows : forall i answers,
  StronglySorted lt (e_index <$> failures i rows answers).
Proof.
  induction rows as [|row rows IH]; intros i [|[e|d] answers]; simpl;
    try by constructor.
  - constructor; [apply IH|].
    apply Forall_fmap.
    eapply Forall_impl; [apply (failures_lower rows (S i))|].
    simpl. lia.
  - apply IH.
Qed.

Lemma indices_partition act rows : forall i answers,
  length answers = length rows ->
  (r_index <$> successes act i rows answers)
    ++ (e_index <$> failures i rows answers) ≡ₚ seq i (length rows).
Proof.
  induction rows as [|row rows IH]; intros i [|[e|d] answers] Hlen;
    simpl in *; try done.
  - rewrite <- Permutation_middle. constructor. apply IH. lia.
  - constructor. apply IH. lia.
Qed.

Lemma outcome_count act rows : forall i answers,
  length answers = length rows ->
  length (successes act i rows answers) + length (failures i rows answers)
  = length rows.
Proof.
  induction rows as [|row rows IH]; intros i [|[e|d] answers] Hlen;
    simpl in *; try done.
  - rewrite Nat.add_succ_r. f_equal. apply IH. lia.
  - f_equal. apply IH. lia.
Qed.

Lemma failure_recorded rows : forall i answers j row e,
  rows !! j = Some row -> answers !! j = Some (inl e) ->
  ErrorEntry (i + j) e row ∈ failures i rows answers.
Proof.
  induction rows as [|r rows IH]; intros i answers j row e Hr Ha; [done|].
  destruct answers as [|a answers]; [done|].
  destruct j as [|j]; simpl in *.
  - simplify_eq. rewrite Nat.add_0_r. left.
  - replace (i + S j) with (S i + j) by lia.
    destruct a; [right|]; by apply IH.
Qed.

Lemma actions_split (l : list result_entry) :
  length (List.filter (has_action Created) l)
  + length (List.filter (has_action Updated) l) = length l.
Proof.
  induction l as [|r l IH]; [done|].
  simpl.
  destruct (has_action Created r) eqn:E1, (has_action Updated r) eqn:E2;
    simpl; try lia;
    unfold has_action in E1, E2; destruct (r_action r);
    repeat case_bool_decide; congruence.
Qed.

(** *** Runs of the row loops *)

Lemma upsertItems_step_run slugToId idSet cid isLive onProgress n i row acc w :
  let c := upsert_call slugToId idSet cid isLive row in
  exists t,
    upsertItems_step remote key_of_other slugToId idSet cid isLive
      onProgress n i row acc w
    = (Return
         (acc.1 ++ successes (upsert_action slugToId idSet) i [row]
                     [(remote w c).2],
          acc.2 ++ failures i [row] [(remote w c).2]),
       (remote w c).1, t)
    /\ calls t = [(c, (remote w c).2)].
Proof.
  unfold upsertItems_step, upsert_call, upsert_action, upsert_target,
    try_catch, bind, updateItem, createItem, request, notify, sleep, ret.
  cbv zeta.
  destruct (truthy (find_existing _ _ _ _ _)) eqn:E; simpl;
    destruct (remote w _) as [w1 [e|d]], onProgress, (i <? n - 1)%nat;
    simpl; rewrite ?E, ?app_nil_r; eexists; split; reflexivity.
Qed.

Lemma upsertItems_loop_run slugToId idSet cid isLive onProgress n rows :
  forall i acc w,
  let cs := upsert_call slugToId idSet cid isLive <$> rows in
  exists t,
    upsertItems_loop remote key_of_other slugToId idSet cid isLive
      onProgress n i rows acc w
    = (Return
         (acc.1 ++ successes (upsert_action slugToId idSet) i rows
                     (replay w cs).1,
          acc.2 ++ failures i rows (replay w cs).1),
       (replay w cs).2, t)
    /\ calls t = zip cs (replay w cs).1.
Proof.
  induction rows as [|row rows IH]; intros i acc w; simpl.
  - exists []. by rewrite !app_nil_r, <- surjective_pairing.
  - unfold bind.
    destruct (upsertItems_step_run slugToId idSet cid isLive onProgress
                n i row acc w) as (t1 & -> & Ht1).
    set (c := upsert_call slugToId idSet cid isLive row) in *.
    destruct (IH (S i)
                (acc.1 ++ successes (upsert_action slugToId idSet) i [row]
                            [(remote w c).2],
                 acc.2 ++ failures i [row] [(remote w c).2])
                (remote w c).1) as (t2 & -> & Ht2).
    exists (t1 ++ t2).
    destruct (remote w c) as [w1 a]. cbn [fst snd] in *.
    destruct (replay w1 _) as [answers w2]. cbn [fst snd] in *. split.
    + destruct a; simpl; by rewrite <- ?app_assoc, ?app_nil_r.
    + unfold calls in *. by rewrite omap_app, Ht1, Ht2.
Qed.

Lemma createItems_step_run cid isLive n i row acc w :
  let c := create_call cid isLive row in
  exists t,
    createItems_step remote cid isLive n i row acc w
    = (Return
         (acc.1 ++ successes (fun _ => Created) i [row] [(remote w c).2],
          acc.2 ++ failures i [row] [(remote w c).2]),
       (remote w c).1, t)
    /\ calls t = [(c, (remote w c).2)].
Proof.
  unfold createItems_step, create_call, try_catch, bind, createItem,
    request, sleep, ret.
  destruct (remote w _) as [w1 [e|d]], (i <? n - 1)%nat;
    simpl; rewrite ?app_nil_r; eexists; split; reflexivity.
Qed.

Lemma createItems_loop_run cid isLive n rows :
  forall i acc w,
  let cs := create_call cid isLive <$> rows in
  exists t,
    createItems_loop remote cid isLive n i rows acc w
    = (Return
         (acc.1 ++ successes (fun _ => Created) i rows (replay w cs).1,
          acc.2 ++ failures i rows (replay w cs).1),
       (replay w cs).2, t)
    /\ calls t = zip cs (replay w cs).1.
Proof.
  induction rows as [|row rows IH]; intros i acc w; simpl.
  - exists []. by rewrite !app_nil_r, <- surjective_pairing.
  - unfold bind.
    destruct (createItems_step_run cid isLive n i row acc w)
      as (t1 & -> & Ht1).
    set (c := create_call cid isLive row) in *.
    destruct (IH (S i)
                (acc.1 ++ successes (fun _ => Created) i [row]
                            [(remote w c).2],
                 acc.2 ++ failures i [row] [(remote w c).2])
                (remote w c).1) as (t2 & -> & Ht2).
    exists (t1 ++ t2).
    destruct (remote w c) as [w1 a]. cbn [fst snd] in *.
    destruct (replay w1 _) as [answers w2]. cbn [fst snd] in *. split.
    + destruct a; simpl; by rewrite <- ?app_assoc, ?app_nil_r.
    + unfold calls in *. by rewrite omap_app, Ht1, Ht2.
Qed.

(** The events of one iteration of the upsert loop: the delay is the constant
    200, and it is there only after a call that succeeded, on a row that is
    not the last. *)
Lemma upsertItems_step_events slugToId idSet cid isLive onProgress n i row acc w :
  let c := upsert_call slugToId idSet cid isLive row in
  (upsertItems_step remote key_of_other slugToId idSet cid isLive onProgress
     n i row acc w).2
  = match (remote w c).2 with
    | inl e => [EvCall c (inl e)]
    | inr d =>
        EvCall c (inr d)
        :: (if onProgress then [EvProgress (Processed (i + 1) n)] else [])
        ++ (if (i <? n - 1)%nat then [EvDelay 200] else [])
    end.
Proof.
  unfold upsertItems_step, upsert_call, upsert_target, try_catch, bind,
    updateItem, createItem, request, notify, sleep, ret.
  cbv zeta.
  destruct (truthy (find_existing _ _ _ _ _)) eqn:E; simpl;
    destruct (remote w _) as [w1 [e|d]], onProgress, (i <? n - 1)%nat;
    reflexivity.
Qed.

(** *** Runs of the paginated listing *)

Lemma listing_shape cid offset w pages w' :
  listing cid offset w pages w' ->
  exists full short,
    pages = full ++ [short]
    /\ Forall (fun p => limit <= length p) full
    /\ length short < limit.
Proof.
  induction 1 as [offset w w1 d Hr Hlen
                 |offset w w1 d pages w2 Hr Hlen _ (full & short & -> & Hf & Hs)].
  - exists [], (default [] (data_items d)). by repeat split.
  - exists (default [] (data_items d) :: full), short.
    repeat split; [by constructor | done].
Qed.

Lemma getItems_run cid offset w :
  getItems remote data_items cid limit offset w
  = (match (remote w (page_call cid offset)).2 with
     | inl e => Throw e
     | inr d => Return (default [] (data_items d))
     end,
     (remote w (page_call cid offset)).1,
     [EvCall (page_call cid offset) (remote w (page_call cid offset)).2]).
Proof.
  unfold getItems, bind, request, ret, page_call. simpl.
  by destruct (remote w _) as [w1 [e|d]].
Qed.

Lemma getAllItems_loop_listing cid offset w pages w' :
  listing cid offset w pages w' ->
  forall fuel allItems,
  length pages <= fuel ->
  exists t,
    getAllItems_loop remote data_items fuel cid offset allItems w
    = Some (Return (allItems ++ concat pages), w', t)
    /\ (calls t).*1
       = (fun k => page_call cid (offset + limit * k))
           <$> seq 0 (length pages)
    /\ page_of <$> (calls t).*2 = pages.
Proof.
  induction 1 as [offset w w1 d Hr Hlen
                 |offset w w1 d pages w2 Hr Hlen Hrest IH];
    intros [|fuel] allItems Hfuel; simpl in Hfuel; try lia;
    cbn [getAllItems_loop]; rewrite getItems_run, Hr; cbn [fst snd].
  - apply Nat.ltb_lt in Hlen as ->.
    eexists. split; [by simpl; rewrite app_nil_r|].
    simpl. by rewrite Nat.add_0_r.
  - apply Nat.ltb_ge in Hlen as ->. unfold sleep. cbn beta iota zeta.
    destruct (IH fuel (allItems ++ default [] (data_items d)))
      as (t & -> & Ht & Hp); [lia|].
    eexists. split; [rewrite <- app_assoc; reflexivity|].
    rewrite !calls_app, !fmap_app, Ht, Hp.
    cbn [calls omap fmap list_fmap app].
    split; [|reflexivity].
    cbn [length seq]. rewrite fmap_cons, Nat.mul_0_r, Nat.add_0_r. f_equal.
    rewrite <- fmap_S_seq, <- list_fmap_compose.
    apply list_fmap_ext. intros _ k _. cbn [compose]. f_equal. lia.
Qed.

Lemma getAllItems_loop_short_of_fuel cid offset w pages w' :
  listing cid offset w pages w' ->
  forall fuel allItems,
  fuel < length pages ->
  getAllItems_loop remote data_items fuel cid offset allItems w = None.
Proof.
  induction 1 as [offset w w1 d Hr Hlen
                 |offset w w1 d pages w2 Hr Hlen Hrest IH];
    intros [|fuel] allItems Hfuel; simpl in Hfuel; try lia; try done;
    cbn [getAllItems_loop]; rewrite getItems_run, Hr; cbn [fst snd].
  apply Nat.ltb_ge in Hlen as ->. unfold sleep. cbn beta iota zeta.
  rewrite IH; [done|lia].
Qed.

(** Whatever the listing does, it only lists. *)
Lemma getAllItems_loop_only_lists fuel : forall cid offset allItems w r w' t,
  getAllItems_loop remote data_items fuel cid offset allItems w
  = Some (r, w', t) ->
  row_calls t = [].
Proof.
  induction fuel as [|fuel IH]; intros cid offset allItems w r w' t;
    [done|].
  cbn [getAllItems_loop]. rewrite getItems_run.
  destruct (remote w _) as [w1 [e|d]]; cbn [fst snd].
  - by intros [= <- <- <-].
  - destruct (_ <? _)%nat; [by intros [= <- <- <-]|].
    simpl.
    destruct (getAllItems_loop _ _ _ _ _ _ _) as [[[r3 w3] t3]|] eqn:E;
      [|done].
    intros [= <- <- <-]. apply IH in E.
    unfold row_calls in *. simpl. done.
Qed.

(** *** Runs of the two bulk operations *)

Lemma row_calls_app t1 t2 : row_calls (t1 ++ t2) = row_calls t1 ++ row_calls t2.
Proof. unfold row_calls. by rewrite calls_app, List.filter_app. Qed.

Lemma writes_kept cs : forall answers : list (string + Data),
  Forall (fun c => is_listing c = false) cs ->
  List.filter (fun ca => negb (is_listing ca.1)) (zip cs answers)
  = zip cs answers.
Proof.
  induction cs as [|c cs IH]; intros [|a answers] Hcs; try done.
  apply Forall_cons in Hcs as [Hc Hcs]. simpl. rewrite Hc. simpl.
  f_equal. by apply IH.
Qed.

Lemma upsert_call_writes slugToId idSet cid isLive rows :
  Forall (fun c => is_listing c = false)
    (upsert_call slugToId idSet cid isLive <$> rows).
Proof.
  apply Forall_fmap, Forall_true. intros row. unfold upsert_call. simpl.
  by destruct (truthy _).
Qed.

Lemma upsertItems_run fuel cid items isLive onProgress w existing w1 t1 :
  getAllItems remote data_items fuel cid w = Some (Return existing, w1, t1) ->
  let slugToId := (build_lookups existing).1 in
  let idSet := (build_lookups existing).2 in
  let cs := upsert_call slugToId idSet cid isLive <$> items in
  let answers := (replay w1 cs).1 in
  exists report t,
    upsertItems remote data_items key_of_other fuel cid items isLive
      onProgress w
    = Some (Return report, (replay w1 cs).2, t)
    /\ u_results report
       = successes (upsert_action slugToId idSet) 0 items answers
    /\ u_errors report = failures 0 items answers
    /\ u_total report = length items
    /\ u_updated report
       = length (List.filter (has_action Updated) (u_results report))
    /\ u_created report
       = length (List.filter (has_action Created) (u_results report))
    /\ row_calls t = zip cs answers.
Proof.
  intros Hfetch slugToId idSet cs answers.
  unfold upsertItems. cbn [notify]. rewrite Hfetch.
  unfold upsertItems_with.
  destruct (build_lookups existing) as [s ids] eqn:Hlk.
  unfold bind at 1. cbn [notify]. unfold bind at 1.
  destruct (upsertItems_loop_run s ids cid isLive onProgress (length items)
              items 0 ([], []) w1) as (t2 & Hrun & Ht2).
  rewrite Hrun. cbn [ret fst snd app].
  eexists _, _. split; [reflexivity|].
  cbn [u_results u_errors u_total u_updated u_created].
  subst slugToId idSet cs answers. cbn [fst snd].
  repeat split.
  rewrite !row_calls_app, app_nil_r.
  unfold getAllItems in Hfetch.
  rewrite (getAllItems_loop_only_lists _ _ _ _ _ _ _ _ Hfetch).
  replace (row_calls (if onProgress then [EvProgress Fetching] else []))
    with (@nil (api_call * (string + Data))) by by destruct onProgress.
  replace (row_calls
             (if onProgress then [EvProgress (Found (length existing))]
              else []))
    with (@nil (api_call * (string + Data))) by by destruct onProgress.
  cbn [app]. unfold row_calls. rewrite Ht2.
  apply writes_kept, upsert_call_writes.
Qed.

Lemma createItems_run cid items isLive w :
  let cs := create_call cid isLive <$> items in
  let answers := (replay w cs).1 in
  exists report t,
    createItems remote cid items isLive w
    = (Return report, (replay w cs).2, t)
    /\ c_results report = successes (fun _ => Created) 0 items answers
    /\ c_errors report = failures 0 items answers
    /\ c_total report = length items
    /\ row_calls t = zip cs answers.
Proof.
  intros cs answers. unfold createItems, bind.
  destruct (createItems_loop_run cid isLive (length items) items 0
              ([], []) w) as (t2 & -> & Ht2).
  cbn [ret fst snd app].
  eexists _, _. split; [reflexivity|].
  cbn [c_results c_errors c_total]. repeat split.
  rewrite app_nil_r. unfold row_calls. rewrite Ht2.
  apply writes_kept, Forall_fmap, Forall_true. done.
Qed.

Lemma row_call_lookup (f : obj -> api_call) items w j row :
  items !! j = Some row ->
  exists a, zip (f <$> items) (replay w (f <$> items)).1 !! j
            = Some (f row, a).
Proof.
  intros Hj.
  destruct (lookup_lt_is_Some_2 (replay w (f <$> items)).1 j) as [a Ha].
  { rewrite length_replay, length_fmap. by eapply lookup_lt_Some. }
  exists a. apply lookup_zip_Some. split; [|done].
  by rewrite list_lookup_fmap, Hj.
Qed.

Lemma payload_upsert_call slugToId idSet cid isLive row :
  payload (upsert_call slugToId idSet cid isLive row)
  = Some (delete "id" row).
Proof. unfold upsert_call. by destruct (truthy _). Qed.

(** *** The two lookups and the decision taken from them *)

Lemma build_lookups_snoc existing it :
  build_lookups (existing ++ [it])
  = (match item_slug it with
     | Some slug =>
         if truthy (VStr slug)
         then set_prop (build_lookups existing).1 slug (VStr (item_id it))
         else (build_lookups existing).1
     | None => (build_lookups existing).1
     end,
     {[ item_id it ]} ∪ (build_lookups existing).2).
Proof.
  unfold build_lookups. rewrite fold_left_app. simpl.
  by destruct (fold_left _ existing _).
Qed.

Lemma idSet_members existing s :
  s ∈ (build_lookups existing).2 <-> s ∈ item_id <$> existing.
Proof.
  induction existing as [|it existing IH] using rev_ind.
  - split; [by intros ?%not_elem_of_empty | by intros ?%elem_of_nil].
  - rewrite build_lookups_snoc, fmap_app. cbn [snd fmap list_fmap].
    rewrite elem_of_union, elem_of_singleton, elem_of_app, IH,
      list_elem_of_singleton.
    tauto.
Qed.

Lemma slugToId_unknown_slug existing k :
  (forall it, it ∈ existing -> item_slug it <> Some k) ->
  (build_lookups existing).1 !! k = None.
Proof.
  induction existing as [|it existing IH] using rev_ind; intros Hno; [done|].
  rewrite build_lookups_snoc. cbn [fst].
  assert (Hrest : (build_lookups existing).1 !! k = None).
  { apply IH. intros it' Hin. apply Hno, elem_of_app. by left. }
  destruct (item_slug it) as [slug|] eqn:Hslug; [|done].
  destruct (truthy (VStr slug)); [|done].
  unfold set_prop. case_bool_decide; [done|].
  rewrite lookup_insert_ne; [done|].
  intros ->. apply (Hno it); [|done].
  apply elem_of_app. right. by apply list_elem_of_singleton.
Qed.

Lemma slugToId_known_slug existing k x :
  k <> "" -> k <> "__proto__" ->
  (exists it, it ∈ existing /\ item_slug it = Some k) ->
  (forall it, it ∈ existing -> item_slug it = Some k -> item_id it = x) ->
  (build_lookups existing).1 !! k = Some (VStr x).
Proof.
  intros Hk Hproto.
  induction existing as [|it existing IH] using rev_ind;
    intros (it0 & Hin & Hit0) Huniq; [by apply elem_of_nil in Hin|].
  rewrite build_lookups_snoc. cbn [fst].
  destruct (decide (item_slug it = Some k)) as [Hit|Hit].
  - rewrite Hit. simpl.
    destruct (String.eqb_spec k ""); [done|]. simpl.
    unfold set_prop. rewrite bool_decide_eq_false_2 by done.
    rewrite lookup_insert_eq. do 2 f_equal.
    apply Huniq; [|done].
    apply elem_of_app. right. by apply list_elem_of_singleton.
  - assert (Hrest : (build_lookups existing).1 !! k = Some (VStr x)).
    { apply IH.
      - exists it0. split; [|done].
        apply elem_of_app in Hin as [Hin|Hin]; [done|].
        apply list_elem_of_singleton in Hin. by subst.
      - intros it' Hin'. apply Huniq, elem_of_app. by left. }
    destruct (item_slug it) as [slug|]; [|done].
    destruct (truthy (VStr slug)); [|done].
    unfold set_prop. case_bool_decide; [done|].
    rewrite lookup_insert_ne; [done|]. congruence.
Qed.

Lemma truthy_nonempty s : s <> "" -> truthy (VStr s) = true.
Proof. intros Hs. simpl. by destruct (String.eqb_spec s ""). Qed.

(** The decision of one iteration, case by case: an [id] that names an
    existing item; else a slug that [slugToId] holds; else, for a row without
    slug or with a slug that [slugToId] neither holds nor inherits, a
    create. *)
Lemma upsert_call_by_id existing cid isLive row s :
  get row "id" = VStr s -> s <> "" -> s ∈ item_id <$> existing ->
  upsert_call (build_lookups existing).1 (build_lookups existing).2 cid
    isLive row
  = UpdateItem cid (VStr s) (delete "id" row) isLive.
Proof.
  intros Hid Hs Hin. unfold upsert_call, upsert_target, find_existing.
  rewrite Hid, (truthy_nonempty s Hs). cbn [idSet_has andb].
  rewrite bool_decide_eq_true_2 by by apply idSet_members.
  by rewrite (truthy_nonempty s Hs).
Qed.

Lemma upsert_call_by_slug existing cid isLive row k x :
  truthy (get row "id") && idSet_has (build_lookups existing).2 (get row "id")
  = false ->
  get (delete "id" row) "slug" = VStr k -> k <> "" ->
  (build_lookups existing).1 !! k = Some (VStr x) -> x <> "" ->
  upsert_call (build_lookups existing).1 (build_lookups existing).2 cid
    isLive row
  = UpdateItem cid (VStr x) (delete "id" row) isLive.
Proof.
  intros Hid Hslug Hk Hlook Hx.
  unfold upsert_call, upsert_target, find_existing.
  rewrite Hid, Hslug. cbn [toPropertyKey]. unfold get at 1 2 3 4.
  rewrite Hlook, (truthy_nonempty k Hk), (truthy_nonempty x Hx).
  cbn [andb]. by rewrite (truthy_nonempty x Hx).
Qed.

Lemma upsert_call_create existing cid isLive row :
  truthy (get row "id") && idSet_has (build_lookups existing).2 (get row "id")
  = false ->
  (truthy (get (delete "id" row) "slug") = false
   \/ exists k, get (delete "id" row) "slug" = VStr k
                /\ (build_lookups existing).1 !! k = None
                /\ k ∉ object_prototype_names) ->
  upsert_call (build_lookups existing).1 (build_lookups existing).2 cid
    isLive row
  = CreateItem cid (delete "id" row) (negb isLive).
Proof.
  intros Hid Hslug. unfold upsert_call, upsert_target, find_existing.
  rewrite Hid.
  destruct Hslug as [->|(k & -> & Hlook & Hk)]; [done|].
  cbn [toPropertyKey]. unfold get at 1 2 3 4. rewrite Hlook.
  unfold inherited. rewrite bool_decide_eq_false_2 by done.
  by rewrite andb_false_r.
Qed.

(** ** The upsert reconciler: bookkeeping *)

(** With no progress callback or with one that returns: whenever the
    existing items have been fetched, [upsertItems] returns a report in
    which every row index below the number of rows occurs exactly once
    across the success list and the error list (the indices of the two
    lists together are a permutation of [0 .. n-1]), and
    [created + updated + |errors| = total = n]. *)
Theorem upsert_accounts_for_every_row
    fuel cid items isLive onProgress w existing w1 t1 :
  getAllItems remote data_items fuel cid w = Some (Return existing, w1, t1) ->
  exists report w2 t,
    upsertItems remote data_items key_of_other fuel cid items isLive
      onProgress w = Some (Return report, w2, t)
    /\ (r_index <$> u_results report) ++ (e_index <$> u_errors report)
       ≡ₚ seq 0 (length items)
    /\ u_created report + u_updated report + length (u_errors report)
       = u_total report
    /\ u_total report = length items.
Proof.
  intros Hfetch.
  destruct (upsertItems_run fuel cid items isLive onProgress w _ _ _ Hfetch)
    as (report & t & Hrun & Hres & Herr & Htot & Hupd & Hcre & _).
  eexists report, _, t. split; [exact Hrun|].
  rewrite Hupd, Hcre, actions_split, Htot, Hres, Herr.
  repeat split.
  - apply indices_partition. by rewrite length_replay, length_fmap.
  - apply outcome_count. by rewrite length_replay, length_fmap.
Qed.

(** C3. Whenever the existing items have been fetched, [upsertItems]
    returns, one write call is sent for every row (in row order, carrying
    that row's fields), every row ends in one of the two lists, and a row
    whose call failed with some message is in the error list with its
    input index, that message and the row itself: a failure at row [i]
    aborts nothing. *)
Theorem upsert_failure_is_recorded_and_skipped
    fuel cid items isLive onProgress w existing w1 t1 :
  getAllItems remote data_items fuel cid w = Some (Return existing, w1, t1) ->
  exists report w2 t,
    upsertItems remote data_items key_of_other fuel cid items isLive
      onProgress w = Some (Return report, w2, t)
    /\ length (row_calls t) = length items
    /\ (forall j row, items !! j = Some row ->
          (exists c answer,
              row_calls t !! j = Some (c, answer)
              /\ payload c = Some (delete "id" row))
          /\ j ∈ (r_index <$> u_results report)
                   ++ (e_index <$> u_errors report))
    /\ (forall i row c message,
          items !! i = Some row ->
          row_calls t !! i = Some (c, inl message) ->
          ErrorEntry i message row ∈ u_errors report).
Proof.
  intros Hfetch.
  destruct (upsertItems_run fuel cid items isLive onProgress w _ _ _ Hfetch)
    as (report & t & Hrun & Hres & Herr & Htot & _ & _ & Hcalls).
  eexists report, _, t. split; [exact Hrun|].
  set (slugToId := (build_lookups existing).1) in *.
  set (idSet := (build_lookups existing).2) in *.
  set (cs := upsert_call slugToId idSet cid isLive <$> items) in *.
  assert (Hlen : length (replay w1 cs).1 = length items)
    by (subst cs; by rewrite length_replay, length_fmap).
  rewrite Hcalls. split; [|split].
  - rewrite length_zip, Hlen. subst cs. rewrite length_fmap. lia.
  - intros j row Hj. split.
    + destruct (row_call_lookup (upsert_call slugToId idSet cid isLive)
                  items w1 j row Hj) as [a Ha].
      exists (upsert_call slugToId idSet cid isLive row), a.
      split; [exact Ha | apply payload_upsert_call].
    + rewrite Hres, Herr, (indices_partition _ _ _ _ Hlen).
      apply elem_of_seq. apply lookup_lt_Some in Hj. lia.
  - intros i row c message Hi Hc.
    apply lookup_zip_Some in Hc as [_ Ha].
    rewrite Herr. by apply (failure_recorded items 0 _ i).
Qed.

(** C5. The field payload of the call sent for a row is the row without
    its [id] key: it has no [id] key and agrees with the row on every
    other key. *)
Theorem upsert_payload_is_row_without_id
    fuel cid items isLive onProgress w existing w1 t1 :
  getAllItems remote data_items fuel cid w = Some (Return existing, w1, t1) ->
  exists report w2 t,
    upsertItems remote data_items key_of_other fuel cid items isLive
      onProgress w = Some (Return report, w2, t)
    /\ forall j row, items !! j = Some row ->
         exists c answer fieldData,
           row_calls t !! j = Some (c, answer)
           /\ payload c = Some fieldData
           /\ fieldData = delete "id" row
           /\ fieldData !! "id" = None
           /\ forall k, k <> "id" -> fieldData !! k = row !! k.
Proof.
  intros Hfetch.
  destruct (upsertItems_run fuel cid items isLive onProgress w _ _ _ Hfetch)
    as (report & t & Hrun & _ & _ & _ & _ & _ & Hcalls).
  eexists report, _, t. split; [exact Hrun|].
  intros j row Hj. rewrite Hcalls.
  destruct (row_call_lookup
              (upsert_call (build_lookups existing).1
                 (build_lookups existing).2 cid isLive)
              items w1 j row Hj) as [a Ha].
  eexists _, a, (delete "id" row).
  split; [exact Ha|]. split; [apply payload_upsert_call|].
  repeat split.
  - apply lookup_delete_eq.
  - intros k Hk. by apply lookup_delete_ne.
Qed.

(** ** The paginated listing *)

(** The query of the call for page [k]: [limit=100], and [offset=100k]
    except on page 0, where the offset, being 0, is left out. *)
Lemma page_call_query cid k :
  page_call cid (limit * k)
  = GetItems cid (Some 100)
      (match k with 0 => None | S _ => Some (100 * k) end).
Proof.
  unfold page_call, query_param, limit. destruct k as [|k].
  - by rewrite Nat.mul_0_r.
  - by destruct (Nat.eqb_spec (100 * S k) 0) as [H|H]; [lia|].
Qed.

(** C7. When the store's listing from the current state consists of full
    pages followed by a first short page, [getAllItems] returns as soon as
    it has fuel for one iteration per page: it has sent exactly one list
    call per page, each with page size 100, the first without offset (an
    offset of 0 is left out of the query) and the call for page [k >= 1]
    with offset [100 k]; the answers to these calls are the pages, and the
    result is their concatenation in order.  With less fuel the loop is
    still running: it does not leave before the short page. *)
Theorem getAllItems_reads_until_short_page cid w pages w' :
  listing cid 0 w pages w' ->
  (exists full short,
      pages = full ++ [short]
      /\ Forall (fun p => 100 <= length p) full
      /\ length short < 100)
  /\ (forall fuel, length pages <= fuel ->
        exists t,
          getAllItems remote data_items fuel cid w
          = Some (Return (concat pages), w', t)
          /\ (calls t).*1
             = (fun k =>
                  GetItems cid (Some 100)
                    (match k with 0 => None | S _ => Some (100 * k) end))
                 <$> seq 0 (length pages)
          /\ page_of <$> (calls t).*2 = pages)
  /\ (forall fuel, fuel < length pages ->
        getAllItems remote data_items fuel cid w = None).
Proof.
  intros Hl. split; [exact (listing_shape _ _ _ _ _ Hl)|]. split.
  - intros fuel Hfuel.
    destruct (getAllItems_loop_listing _ _ _ _ _ Hl fuel [] Hfuel)
      as (t & Hrun & Hc & Hp).
    exists t. split; [exact Hrun|]. split; [|exact Hp].
    rewrite Hc. apply list_fmap_ext. intros _ k _.
    apply (page_call_query cid k).
  - intros fuel Hfuel.
    by apply (getAllItems_loop_short_of_fuel _ _ _ _ _ Hl).
Qed.

(** ** The worked example of the specification *)

Lemma example_calls cid isLive :
  upsert_call (build_lookups example_existing).1
    (build_lookups example_existing).2 cid isLive <$> example_rows
  = [ UpdateItem cid (VStr "a1") {[ "title" := VStr "X" ]} isLive;
      UpdateItem cid (VStr "other")
        {[ "slug" := VStr "y"; "title" := VStr "Y" ]} isLive;
      CreateItem cid {[ "title" := VStr "Z" ]} (negb isLive) ].
Proof. vm_compute. reflexivity. Qed.

Lemma example_actions :
  upsert_action (build_lookups example_existing).1
    (build_lookups example_existing).2 <$> example_rows
  = [Updated; Updated; Created].
Proof. vm_compute. reflexivity. Qed.

(** C4. Rows [{id:"a1",title:"X"}, {slug:"y",title:"Y"}, {title:"Z"}]
    against the existing items [a1] (no slug) and [other] (slug ["y"]),
    every write call succeeding: the calls are an update of [a1] with
    [{title:"X"}], an update of [other] with row 1, and a create with row
    2; the report has three successes tagged updated, updated, created,
    [created = 1], [updated = 2] and no error. *)
Theorem upsert_worked_example fuel cid isLive onProgress w w1 t1 :
  getAllItems remote data_items fuel cid w
  = Some (Return example_existing, w1, t1) ->
  (forall w c, is_listing c = false -> exists d, (remote w c).2 = inr d) ->
  exists report w2 t d0 d1 d2,
    upsertItems remote data_items key_of_other fuel cid example_rows
      isLive onProgress w = Some (Return report, w2, t)
    /\ row_calls t
       = [ (UpdateItem cid (VStr "a1") {[ "title" := VStr "X" ]} isLive,
            inr d0);
           (UpdateItem cid (VStr "other")
              {[ "slug" := VStr "y"; "title" := VStr "Y" ]} isLive,
            inr d1);
           (CreateItem cid {[ "title" := VStr "Z" ]} (negb isLive),
            inr d2) ]
    /\ u_results report
       = [ ResultEntry 0 d0 Updated; ResultEntry 1 d1 Updated;
           ResultEntry 2 d2 Created ]
    /\ u_created report = 1
    /\ u_updated report = 2
    /\ u_errors report = []
    /\ u_total report = 3.
Proof.
  intros Hfetch Hok.
  destruct (upsertItems_run fuel cid example_rows isLive onProgress w _ _ _
              Hfetch)
    as (report & t & Hrun & Hres & Herr & Htot & Hupd & Hcre & Hcalls).
  rewrite example_calls in Hrun, Hres, Herr, Hcalls.
  cbn [replay] in Hrun, Hres, Herr, Hcalls.
  destruct (remote w1 _) as [wa a0] eqn:E0.
  destruct (Hok w1 _ (eq_refl : is_listing (UpdateItem cid (VStr "a1")
              {[ "title" := VStr "X" ]} isLive) = false)) as [d0 Hd0].
  rewrite E0 in Hd0. cbn [snd] in Hd0. subst a0.
  destruct (remote wa _) as [wb a1] eqn:E1.
  destruct (Hok wa _ (eq_refl : is_listing (UpdateItem cid (VStr "other")
              {[ "slug" := VStr "y"; "title" := VStr "Y" ]} isLive) = false))
    as [d1 Hd1].
  rewrite E1 in Hd1. cbn [snd] in Hd1. subst a1.
  destruct (remote wb _) as [wc a2] eqn:E2.
  destruct (Hok wb _ (eq_refl : is_listing (CreateItem cid
              {[ "title" := VStr "Z" ]} (negb isLive)) = false)) as [d2 Hd2].
  rewrite E2 in Hd2. cbn [snd] in Hd2. subst a2.
  cbn [fst snd] in Hrun, Hres, Herr, Hcalls.
  unfold example_rows in Hres, Herr.
  cbn [successes failures] in Hres, Herr.
  change (upsert_action _ _ {[ "id" := VStr "a1"; "title" := VStr "X" ]})
    with (hd Created
            (upsert_action (build_lookups example_existing).1
               (build_lookups example_existing).2 <$> example_rows))
    in Hres.
  change (upsert_action _ _ {[ "slug" := VStr "y"; "title" := VStr "Y" ]})
    with (hd Created
            (tl (upsert_action (build_lookups example_existing).1
                   (build_lookups example_existing).2 <$> example_rows)))
    in Hres.
  change (upsert_action _ _ {[ "title" := VStr "Z" ]})
    with (hd Updated
            (tl (tl (upsert_action (build_lookups example_existing).1
                       (build_lookups example_existing).2
                     <$> example_rows))))
    in Hres.
  rewrite example_actions in Hres. cbn [hd tl] in Hres.
  eexists report, _, t, d0, d1, d2.
  split; [exact Hrun|]. split; [exact Hcalls|]. split; [exact Hres|].
  rewrite Hcre, Hupd, Hres, Herr, Htot. by repeat split.
Qed.


(** * Further properties of the client *)

Lemma filter_length_ext_in {A} (f g : A -> bool) (l : list A) :
  (forall x, f x = g x) ->
  length (List.filter f l) = length (List.filter g l).
Proof.
  intros Hfg. induction l as [|x l IH]; [done|].
  simpl. rewrite Hfg. destruct (g x); simpl; lia.
Qed.

(** ** Events of the two row loops *)

Lemma progress_of_app t1 t2 :
  progress_of (t1 ++ t2) = progress_of t1 ++ progress_of t2.
Proof. apply omap_app. Qed.

Lemma delays_of_app t1 t2 : delays_of (t1 ++ t2) = delays_of t1 ++ delays_of t2.
Proof. apply omap_app. Qed.

Lemma upsertItems_loop_cons slugToId idSet cid isLive onProgress n i row rest acc w :
  exists acc',
    (upsertItems_loop remote key_of_other slugToId idSet cid isLive
       onProgress n i (row :: rest) acc w).2
    = (upsertItems_step remote key_of_other slugToId idSet cid isLive
         onProgress n i row acc w).2
      ++ (upsertItems_loop remote key_of_other slugToId idSet cid isLive
            onProgress n (S i) rest acc'
            (remote w (upsert_call slugToId idSet cid isLive row)).1).2.
Proof.
  cbn [upsertItems_loop]. unfold bind.
  destruct (upsertItems_step_run slugToId idSet cid isLive onProgress n i
              row acc w) as (t1 & -> & _).
  match goal with
  | |- context [upsertItems_loop _ _ _ _ _ _ _ _ _ _ ?a _] => exists a
  end.
  cbn [snd].
  by destruct (upsertItems_loop _ _ _ _ _ _ _ _ _ _ _ _) as [[r w2] t2].
Qed.

Lemma createItems_step_events cid isLive n i row acc w :
  let c := create_call cid isLive row in
  (createItems_step remote cid isLive n i row acc w).2
  = match (remote w c).2 with
    | inl e => [EvCall c (inl e)]
    | inr d =>
        EvCall c (inr d) :: (if (i <? n - 1)%nat then [EvDelay 150] else [])
    end.
Proof.
  unfold createItems_step, create_call, try_catch, bind, createItem, request,
    sleep, ret.
  by destruct (remote w _) as [w1 [e|d]], (i <? n - 1)%nat.
Qed.

Lemma createItems_loop_cons cid isLive n i row rest acc w :
  exists acc',
    (createItems_loop remote cid isLive n i (row :: rest) acc w).2
    = (createItems_step remote cid isLive n i row acc w).2
      ++ (createItems_loop remote cid isLive n (S i) rest acc'
            (remote w (create_call cid isLive row)).1).2.
Proof.
  cbn [createItems_loop]. unfold bind.
  destruct (createItems_step_run cid isLive n i row acc w) as (t1 & -> & _).
  match goal with
  | |- context [createItems_loop _ _ _ _ _ _ ?a _] => exists a
  end.
  cbn [snd].
  by destruct (createItems_loop _ _ _ _ _ _ _ _) as [[r w2] t2].
Qed.

(** The waits a loop makes, read off the entries it pushed: one per
    succeeded row that is not the last. *)
Lemma successes_cons_answer act i row rows a answers :
  successes act i (row :: rows) (a :: answers)
  = match a with
    | inl _ => []
    | inr d => [ResultEntry i d (act row)]
    end ++ successes act (S i) rows answers.
Proof. by destruct a. Qed.

Lemma upsertItems_loop_progress slugToId idSet cid isLive onProgress n rows :
  forall i acc w,
  progress_of
    (upsertItems_loop remote key_of_other slugToId idSet cid isLive
       onProgress n i rows acc w).2
  = if onProgress
    then (fun r => Processed (r_index r + 1) n)
           <$> successes (upsert_action slugToId idSet) i rows
                 (replay w (upsert_call slugToId idSet cid isLive <$> rows)).1
    else [].
Proof.
  induction rows as [|row rows IH]; intros i acc w.
  - by destruct onProgress.
  - destruct (upsertItems_loop_cons slugToId idSet cid isLive onProgress n i
                row rows acc w) as [acc' ->].
    rewrite progress_of_app, IH, upsertItems_step_events.
    cbn [fmap list_fmap replay].
    destruct (remote w _) as [w1 a]. cbn [fst snd].
    destruct (replay w1 _) as [answers w2]. cbn [fst snd].
    rewrite successes_cons_answer.
    destruct a as [e|d], onProgress, (i <? n - 1)%nat; reflexivity.
Qed.

Lemma upsertItems_loop_delays slugToId idSet cid isLive onProgress n rows :
  forall i acc w,
  delays_of
    (upsertItems_loop remote key_of_other slugToId idSet cid isLive
       onProgress n i rows acc w).2
  = (fun _ => 200)
      <$> List.filter (fun r => (r_index r <? n - 1)%nat)
            (successes (upsert_action slugToId idSet) i rows
               (replay w (upsert_call slugToId idSet cid isLive <$> rows)).1).
Proof.
  induction rows as [|row rows IH]; intros i acc w; [done|].
  destruct (upsertItems_loop_cons slugToId idSet cid isLive onProgress n i
              row rows acc w) as [acc' ->].
  rewrite delays_of_app, IH, upsertItems_step_events.
  cbn [fmap list_fmap replay].
  destruct (remote w _) as [w1 a]. cbn [fst snd].
  destruct (replay w1 _) as [answers w2]. cbn [fst snd].
  rewrite successes_cons_answer, List.filter_app, fmap_app.
  destruct a as [e|d]; [reflexivity|].
  cbn [List.filter r_index].
  destruct onProgress, (i <? n - 1)%nat; reflexivity.
Qed.

Lemma createItems_loop_delays cid isLive n rows :
  forall i acc w,
  delays_of (createItems_loop remote cid isLive n i rows acc w).2
  = (fun _ => 150)
      <$> List.filter (fun r => (r_index r <? n - 1)%nat)
            (successes (fun _ => Created) i rows
               (replay w (create_call cid isLive <$> rows)).1).
Proof.
  induction rows as [|row rows IH]; intros i acc w; [done|].
  destruct (createItems_loop_cons cid isLive n i row rows acc w)
    as [acc' ->].
  rewrite delays_of_app, IH, createItems_step_events.
  cbn [fmap list_fmap replay].
  destruct (remote w _) as [w1 a]. cbn [fst snd].
  destruct (replay w1 _) as [answers w2]. cbn [fst snd].
  rewrite successes_cons_answer, List.filter_app, fmap_app.
  destruct a as [e|d]; [reflexivity|].
  cbn [List.filter r_index].
  destruct (i <? n - 1)%nat; reflexivity.
Qed.

(** ** The paginated listing, whatever the remote answers *)

Lemma getAllItems_loop_shape fuel : forall cid offset allItems w r w' t,
  getAllItems_loop remote data_items fuel cid offset allItems w
  = Some (r, w', t) ->
  (calls t).*1
  = (fun k => page_call cid (offset + limit * k)) <$> seq 0 (length (calls t))
  /\ t = between (EvDelay 150) ((fun ca => EvCall ca.1 ca.2) <$> calls t)
  /\ 1 <= length (calls t).
Proof.
  induction fuel as [|fuel IH]; intros cid offset allItems w r w' t; [done|].
  cbn [getAllItems_loop]. rewrite getItems_run.
  destruct (remote w _) as [w1 [e|d]]; cbn [fst snd].
  - intros [= <- <- <-].
    change (calls [EvCall (page_call cid offset) (inl e)])
      with [(page_call cid offset, @inl string Data e)].
    cbn [length seq fmap list_fmap between fst snd].
    by rewrite Nat.mul_0_r, Nat.add_0_r.
  - destruct (_ <? _)%nat.
    { intros [= <- <- <-].
      change (calls [EvCall (page_call cid offset) (inr d)])
        with [(page_call cid offset, @inr string Data d)].
      cbn [length seq fmap list_fmap between fst snd].
      by rewrite Nat.mul_0_r, Nat.add_0_r. }
    unfold sleep. cbn beta iota zeta.
    destruct (getAllItems_loop _ _ _ _ _ _ _) as [[[r3 w3] t3]|] eqn:E;
      [|done].
    intros [= <- <- <-].
    destruct (IH _ _ _ _ _ _ _ E) as (Hc & Hb & Hn).
    change (calls (EvCall (page_call cid offset) (inr d)
                   :: EvDelay 150 :: t3))
      with ((page_call cid offset, @inr string Data d) :: calls t3).
    split; [|split].
    + cbn [length seq]. rewrite !fmap_cons, Nat.mul_0_r, Nat.add_0_r.
      cbn [fst]. f_equal.
      rewrite Hc, <- fmap_S_seq, <- list_fmap_compose.
      apply list_fmap_ext. intros _ k _. cbn [compose]. f_equal. lia.
    + rewrite fmap_cons. cbn [fst snd app].
      destruct (calls t3) as [|ca cas] eqn:Hcalls; [simpl in Hn; lia|].
      rewrite fmap_cons. cbn [between]. rewrite fmap_cons in Hb.
      do 2 f_equal. exact Hb.
    + cbn [length]. lia.
Qed.

Lemma between_progress (l : list (api_call * (string + Data))) :
  progress_of (between (EvDelay 150) ((fun ca => EvCall ca.1 ca.2) <$> l)) = [].
Proof.
  induction l as [|ca [|ca' l] IH]; [done..|].
  rewrite !fmap_cons. cbn [between]. rewrite !fmap_cons in IH.
  exact IH.
Qed.

Lemma getAllItems_loop_throws cid offset w pages w1 :
  full_pages cid offset w pages w1 ->
  forall w2 e fuel allItems,
  remote w1 (page_call cid (offset + limit * length pages)) = (w2, inl e) ->
  length pages < fuel ->
  exists t,
    getAllItems_loop remote data_items fuel cid offset allItems w
    = Some (Throw e, w2, t)
    /\ length (calls t) = S (length pages).
Proof.
  induction 1 as [offset w|offset w w1 d pages w2' Hr Hlen Hrest IH];
    intros w2 e [|fuel] allItems Hfail Hfuel; simpl in Hfuel; try lia;
    cbn [getAllItems_loop]; rewrite getItems_run.
  - cbn [length] in Hfail. rewrite Nat.mul_0_r, Nat.add_0_r in Hfail.
    rewrite Hfail. cbn [fst snd]. by eexists.
  - rewrite Hr. cbn [fst snd].
    apply Nat.ltb_ge in Hlen as ->. unfold sleep. cbn beta iota zeta.
    destruct (IH w2 e fuel (allItems ++ default [] (data_items d)))
      as (t & -> & Ht); [|lia|].
    { rewrite <- Hfail. do 2 f_equal. cbn [length]. lia. }
    eexists. split; [reflexivity|].
    rewrite !calls_app, !length_app, Ht. reflexivity.
Qed.

(** ** The run of upsertItems, event by event *)

Lemma upsertItems_events fuel cid items isLive onProgress w existing w1 t1 :
  getAllItems remote data_items fuel cid w = Some (Return existing, w1, t1) ->
  let slugToId := (build_lookups existing).1 in
  let idSet := (build_lookups existing).2 in
  let cs := upsert_call slugToId idSet cid isLive <$> items in
  exists report w2,
    upsertItems remote data_items key_of_other fuel cid items isLive
      onProgress w
    = Some (Return report, w2,
            (if onProgress then [EvProgress Fetching] else [])
            ++ t1
            ++ (if onProgress
                then [EvProgress (Found (length existing))] else [])
            ++ (upsertItems_loop remote key_of_other slugToId idSet cid
                  isLive onProgress (length items) 0 items ([], []) w1).2)
    /\ u_results report
       = successes (upsert_action slugToId idSet) 0 items (replay w1 cs).1
    /\ u_errors report = failures 0 items (replay w1 cs).1.
Proof.
  intros Hfetch slugToId idSet cs.
  unfold upsertItems. cbn [notify]. rewrite Hfetch.
  unfold upsertItems_with.
  subst slugToId idSet cs.
  destruct (build_lookups existing) as [s ids] eqn:Hlk. cbn [fst snd].
  unfold bind at 1. cbn [notify]. unfold bind at 1.
  destruct (upsertItems_loop_run s ids cid isLive onProgress (length items)
              items 0 ([], []) w1) as (t2 & Hrun & Ht2).
  rewrite Hrun. cbn [ret fst snd app].
  eexists _, _. split; [by rewrite app_nil_r|].
  cbn [u_results u_errors]. by split.
Qed.

Lemma success_recorded act rows : forall i answers j row d,
  rows !! j = Some row -> answers !! j = Some (inr d) ->
  ResultEntry (i + j) d (act row) ∈ successes act i rows answers.
Proof.
  induction rows as [|r rows IH]; intros i answers j row d Hr Ha; [done|].
  destruct answers as [|a answers]; [done|].
  destruct j as [|j]; simpl in *.
  - simplify_eq. rewrite Nat.add_0_r. left.
  - replace (i + S j) with (S i + j) by lia.
    destruct a; [|right]; by apply IH.
Qed.

Lemma successes_tagged act rows : forall i answers,
  Forall (fun r => exists row, row ∈ rows /\ r_action r = act row)
    (successes act i rows answers).
Proof.
  induction rows as [|row rows IH]; intros i [|[e|d] answers]; simpl;
    try by constructor.
  - eapply Forall_impl; [apply IH|].
    intros r (row' & Hin & Hr). exists row'. split; [by right|done].
  - constructor.
    + exists row. split; [left|done].
    + eapply Forall_impl; [apply IH|].
      intros r (row' & Hin & Hr). exists row'. split; [by right|done].
Qed.

Lemma createItems_calls cid items isLive w :
  calls (createItems remote cid items isLive w).2
  = zip (create_call cid isLive <$> items)
      (replay w (create_call cid isLive <$> items)).1.
Proof.
  unfold createItems, bind.
  destruct (createItems_loop_run cid isLive (length items) items 0
              ([], []) w) as (t2 & -> & Ht2).
  cbn [ret snd]. by rewrite app_nil_r.
Qed.

Lemma createItems_delays cid items isLive w :
  delays_of (createItems remote cid items isLive w).2
  = (fun _ => 150)
      <$> List.filter (fun r => (r_index r <? length items - 1)%nat)
            (successes (fun _ => Created) 0 items
               (replay w (create_call cid isLive <$> items)).1).
Proof.
  rewrite <- (createItems_loop_delays cid isLive (length items) items 0
                ([], []) w).
  unfold createItems, bind.
  destruct (createItems_loop _ _ _ _ _ _ _ _) as [[[a|e] w2] t2];
    cbn [ret snd]; by rewrite ?app_nil_r.
Qed.

(** ** createItems *)

(** X1. [createItems] always returns a report; every row index occurs
    exactly once across its two lists, the successes and the failures add up
    to [total], which is the number of rows, and every success is tagged
    [created]. *)
Theorem createItems_accounts_for_every_row cid items isLive w :
  exists report w2 t,
    createItems remote cid items isLive w = (Return report, w2, t)
    /\ (r_index <$> c_results report) ++ (e_index <$> c_errors report)
       ≡ₚ seq 0 (length items)
    /\ length (c_results report) + length (c_errors report) = c_total report
    /\ c_total report = length items
    /\ Forall (fun r => r_action r = Created) (c_results report).
Proof.
  destruct (createItems_run cid items isLive w)
    as (report & t & Hrun & Hres & Herr & Htot & _).
  eexists report, _, t. split; [exact Hrun|].
  rewrite Hres, Herr, Htot.
  assert (Hlen : length (replay w (create_call cid isLive <$> items)).1
                 = length items) by by rewrite length_replay, length_fmap.
  repeat split.
  - by apply indices_partition.
  - by apply outcome_count.
  - eapply Forall_impl; [apply successes_tagged|]. by intros r (_ & _ & ->).
Qed.

(** X2. [createItems] sends one create call per row, in row order, for the
    given collection, with the row itself as field data (an [id] key stays
    in it) and as a draft exactly when [isLive] is off.  A row whose call
    failed is in the error list with its index, the message and the row; a
    row whose call succeeded is in the success list with its index and the
    answer. *)
Theorem createItems_sends_each_row_as_it_is cid items isLive w :
  exists report w2 t,
    createItems remote cid items isLive w = (Return report, w2, t)
    /\ (calls t).*1 = (fun row => CreateItem cid row (negb isLive)) <$> items
    /\ (forall i row c message,
          items !! i = Some row -> calls t !! i = Some (c, inl message) ->
          ErrorEntry i message row ∈ c_errors report)
    /\ (forall i row c d,
          items !! i = Some row -> calls t !! i = Some (c, inr d) ->
          ResultEntry i d Created ∈ c_results report).
Proof.
  destruct (createItems_run cid items isLive w)
    as (report & t & Hrun & Hres & Herr & _).
  eexists report, _, t. split; [exact Hrun|].
  pose proof (createItems_calls cid items isLive w) as Hcalls.
  rewrite Hrun in Hcalls. cbn [snd] in Hcalls. rewrite Hcalls.
  split; [|split].
  - rewrite fst_zip; [done|]. by rewrite length_replay.
  - intros i row c message Hi Hc. apply lookup_zip_Some in Hc as [_ Ha].
    rewrite Herr. by apply (failure_recorded items 0 _ i).
  - intros i row c d Hi Hc. apply lookup_zip_Some in Hc as [_ Ha].
    rewrite Hres.
    by apply (success_recorded (fun _ => Created) items 0 _ i row).
Qed.

Lemma createItems_loop_events cid isLive n rows :
  forall i acc w,
  (createItems_loop remote cid isLive n i rows acc w).2
  = create_events n i
      (zip (create_call cid isLive <$> rows)
         (replay w (create_call cid isLive <$> rows)).1).
Proof.
  induction rows as [|row rows IH]; intros i acc w; [done|].
  destruct (createItems_loop_cons cid isLive n i row rows acc w)
    as [acc' ->].
  rewrite IH, createItems_step_events.
  cbn [fmap list_fmap replay].
  destruct (remote w _) as [w1 a]. cbn [fst snd].
  destruct (replay w1 _) as [answers w2]. cbn [fst snd zip zip_with].
  cbn [create_events fst snd answered].
  destruct a as [e|d]; [reflexivity|].
  by destruct (i <? n - 1)%nat.
Qed.

Lemma createItems_events cid items isLive w :
  (createItems remote cid items isLive w).2
  = create_events (length items) 0
      (zip (create_call cid isLive <$> items)
         (replay w (create_call cid isLive <$> items)).1).
Proof.
  pose proof (createItems_loop_events cid isLive (length items) items 0
                ([], []) w) as He.
  unfold createItems, bind.
  destruct (createItems_loop remote cid isLive (length items) 0 items
              ([], []) w) as [[r w1] t1].
  cbn [snd] in He. destruct r as [acc|e]; cbn [ret snd].
  - by rewrite app_nil_r.
  - done.
Qed.

(** X3. A run of [createItems] is, row after row in input order, the
    create call of the row, directly followed by one wait of 150 ms when
    the call succeeded and the row is not the last one, and by nothing
    when the call failed or the row is the last: the waits stand right
    after the succeeded calls and nowhere else.  So the waits of the run
    are one of 150 ms per recorded result that is not of the last row. *)
Theorem createItems_waits_after_successes cid items isLive w :
  exists report w2 t,
    createItems remote cid items isLive w = (Return report, w2, t)
    /\ (calls t).*1 = create_call cid isLive <$> items
    /\ t = create_events (length items) 0 (calls t)
    /\ delays_of t
       = (fun _ => 150)
           <$> List.filter (fun r => (r_index r <? length items - 1)%nat)
                 (c_results report).
Proof.
  destruct (createItems_run cid items isLive w)
    as (report & t & Hrun & Hres & _).
  eexists report, _, t. split; [exact Hrun|].
  pose proof (createItems_calls cid items isLive w) as Hc.
  pose proof (createItems_events cid items isLive w) as He.
  pose proof (createItems_delays cid items isLive w) as Hd.
  rewrite Hrun in Hc, He, Hd. cbn [snd] in Hc, He, Hd.
  split; [|split].
  - rewrite Hc, fst_zip; [done|]. by rewrite length_replay.
  - by rewrite Hc.
  - by rewrite Hd, Hres.
Qed.

(** ** getAllItems *)

(** X4. Whatever the remote answers and however the loop ends (a short
    page or a failed call), [getAllItems] has sent only list calls for the
    given collection, at least one, with page size 100, the first without
    offset and the call for page [k >= 1] with offset [100 k]; the run is
    these calls with one wait of 150 ms between neighbours; no write is sent
    and no progress is reported. *)
Theorem getAllItems_only_lists_pages_in_order fuel cid w r w' t :
  getAllItems remote data_items fuel cid w = Some (r, w', t) ->
  (calls t).*1
  = (fun k =>
       GetItems cid (Some 100)
         (match k with 0 => None | S _ => Some (100 * k) end))
      <$> seq 0 (length (calls t))
  /\ 1 <= length (calls t)
  /\ t = between (EvDelay 150) ((fun ca => EvCall ca.1 ca.2) <$> calls t)
  /\ row_calls t = []
  /\ progress_of t = [].
Proof.
  intros Hrun. unfold getAllItems in Hrun.
  destruct (getAllItems_loop_shape _ _ _ _ _ _ _ _ Hrun) as (Hc & Hb & Hn).
  repeat split; try done.
  - rewrite Hc. apply list_fmap_ext. intros _ k _.
    apply (page_call_query cid k).
  - by apply (getAllItems_loop_only_lists _ _ _ _ _ _ _ _ Hrun).
  - rewrite Hb. apply between_progress.
Qed.

(** X5. When the store answers some full pages and then fails a list call,
    [getAllItems] throws the message of that failure, with fuel for one
    more iteration than there were pages: the pages read so far are not
    returned, and no further call is sent. *)
Theorem getAllItems_throws_on_failed_page cid w pages w1 w2 e fuel :
  full_pages cid 0 w pages w1 ->
  remote w1 (GetItems cid (Some 100) (query_param (100 * length pages)))
  = (w2, inl e) ->
  length pages < fuel ->
  exists t,
    getAllItems remote data_items fuel cid w = Some (Throw e, w2, t)
    /\ length (calls t) = S (length pages).
Proof.
  intros Hp Hfail Hfuel.
  by apply (getAllItems_loop_throws cid 0 w pages w1 Hp w2 e fuel []).
Qed.

Lemma getAllItems_quiet fuel cid w r w' t :
  getAllItems remote data_items fuel cid w = Some (r, w', t) ->
  progress_of t = [].
Proof.
  intros Hrun. unfold getAllItems in Hrun.
  destruct (getAllItems_loop_shape _ _ _ _ _ _ _ _ Hrun) as (_ & Hb & _).
  rewrite Hb. apply between_progress.
Qed.

(** ** upsertItems: what the caller sees besides the report *)

(** X6. With a progress callback, [upsertItems] reports: fetching; the
    number of existing items found; then, for each row whose call succeeded
    and for no other row, "processed i+1 of n", in row order.  Without a
    callback nothing is reported. *)
Theorem upsert_reports_progress_of_successes
    fuel cid items isLive onProgress w existing w1 t1 :
  getAllItems remote data_items fuel cid w = Some (Return existing, w1, t1) ->
  exists report w2 t,
    upsertItems remote data_items key_of_other fuel cid items isLive
      onProgress w = Some (Return report, w2, t)
    /\ progress_of t
       = if onProgress
         then Fetching :: Found (length existing)
              :: ((fun r => Processed (r_index r + 1) (length items))
                    <$> u_results report)
         else [].
Proof.
  intros Hfetch.
  destruct (upsertItems_events fuel cid items isLive onProgress w _ _ _
              Hfetch) as (report & w2 & Hrun & Hres & _).
  eexists report, w2, _. split; [exact Hrun|].
  pose proof (getAllItems_quiet fuel cid w _ _ _ Hfetch) as Hquiet.
  rewrite !progress_of_app, Hquiet, upsertItems_loop_progress, Hres.
  by destruct onProgress.
Qed.

(** X8. When fetching the existing items fails, [upsertItems] throws the
    same message: no row is looked at and no write is sent. *)
Theorem upsert_aborts_when_fetch_fails
    fuel cid items isLive onProgress w e w1 t1 :
  getAllItems remote data_items fuel cid w = Some (Throw e, w1, t1) ->
  exists t,
    upsertItems remote data_items key_of_other fuel cid items isLive
      onProgress w = Some (Throw e, w1, t)
    /\ calls t = calls t1
    /\ row_calls t = [].
Proof.
  intros Hfetch. unfold upsertItems. cbn [notify]. rewrite Hfetch.
  eexists. split; [reflexivity|].
  assert (Hc : calls ((if onProgress then [EvProgress Fetching] else [])
                      ++ t1) = calls t1) by by destruct onProgress.
  split; [exact Hc|].
  unfold row_calls. rewrite Hc.
  by apply (getAllItems_loop_only_lists _ _ _ _ _ _ _ _ Hfetch).
Qed.

(** ** upsertItems: the decision, where it is the intended one *)

Lemma slugToId_last_wins l1 it l2 k :
  item_slug it = Some k -> k <> "" -> k <> "__proto__" ->
  Forall (fun it' => item_slug it' <> Some k) l2 ->
  (build_lookups (l1 ++ it :: l2)).1 !! k = Some (VStr (item_id it)).
Proof.
  intros Hit Hk Hproto.
  induction l2 as [|it' l2 IH] using rev_ind; intros Hl2.
  - change (l1 ++ [it]) with (l1 ++ [it]).
    rewrite build_lookups_snoc, Hit, (truthy_nonempty k Hk). cbn [fst].
    unfold set_prop. rewrite bool_decide_eq_false_2 by done.
    apply lookup_insert_eq.
  - apply Forall_app in Hl2 as [Hl2 Hit']. apply Forall_inv in Hit'.
    replace (l1 ++ it :: l2 ++ [it']) with ((l1 ++ it :: l2) ++ [it'])
      by by rewrite <- app_assoc.
    rewrite build_lookups_snoc. cbn [fst].
    destruct (item_slug it') as [slug|]; [|by apply IH].
    destruct (truthy (VStr slug)); [|by apply IH].
    unfold set_prop. case_bool_decide; [by apply IH|].
    rewrite lookup_insert_ne; [by apply IH|]. by intros ->.
Qed.

Lemma get_delete_id (row : obj) k :
  k <> "id" -> get (delete "id" row) k = get row k.
Proof. intros Hk. unfold get. by rewrite lookup_delete_ne. Qed.

Lemma no_id_match existing (row : obj) :
  (forall s, get row "id" = VStr s -> s ∉ item_id <$> existing) ->
  truthy (get row "id")
  && idSet_has (build_lookups existing).2 (get row "id") = false.
Proof.
  intros Hno. destruct (get row "id") as [| | | |s|] eqn:Hid;
    try apply andb_false_r.
  cbn [idSet_has]. rewrite bool_decide_eq_false_2; [apply andb_false_r|].
  rewrite idSet_members. by apply Hno.
Qed.

Lemma upsertItems_write_at
    fuel cid items isLive onProgress w existing w1 t1 j row :
  getAllItems remote data_items fuel cid w = Some (Return existing, w1, t1) ->
  items !! j = Some row ->
  exists report w2 t answer,
    upsertItems remote data_items key_of_other fuel cid items isLive
      onProgress w = Some (Return report, w2, t)
    /\ row_calls t !! j
       = Some (upsert_call (build_lookups existing).1
                 (build_lookups existing).2 cid isLive row, answer).
Proof.
  intros Hfetch Hj.
  destruct (upsertItems_run fuel cid items isLive onProgress w _ _ _ Hfetch)
    as (report & t & Hrun & _ & _ & _ & _ & _ & Hcalls).
  destruct (row_call_lookup
              (upsert_call (build_lookups existing).1
                 (build_lookups existing).2 cid isLive)
              items w1 j row Hj) as [a Ha].
  eexists report, _, t, a. split; [exact Hrun|]. by rewrite Hcalls.
Qed.

(** X9. A row whose [id] is a non-empty string naming an existing item is
    sent as an update of that item, whatever its slug; the field data is the
    row without its [id]. *)
Theorem upsert_updates_by_id
    fuel cid items isLive onProgress w existing w1 t1 j row s :
  getAllItems remote data_items fuel cid w = Some (Return existing, w1, t1) ->
  items !! j = Some row ->
  get row "id" = VStr s -> s <> "" -> s ∈ item_id <$> existing ->
  exists report w2 t answer,
    upsertItems remote data_items key_of_other fuel cid items isLive
      onProgress w = Some (Return report, w2, t)
    /\ row_calls t !! j
       = Some (UpdateItem cid (VStr s) (delete "id" row) isLive, answer).
Proof.
  intros Hfetch Hj Hid Hs Hin.
  destruct (upsertItems_write_at fuel cid items isLive onProgress w _ _ _ j
              row Hfetch Hj) as (report & w2 & t & a & Hrun & Hc).
  exists report, w2, t, a. split; [exact Hrun|].
  by rewrite Hc, (upsert_call_by_id existing cid isLive row s).
Qed.

(** X10. A row whose [id] names no existing item and whose slug is a
    non-empty string (other than [__proto__]) carried by existing items is
    sent as an update of the last listed item with that slug, provided that
    item's identifier is not empty. *)
Theorem upsert_updates_last_item_with_slug
    fuel cid items isLive onProgress w l1 it l2 w1 t1 j row k :
  getAllItems remote data_items fuel cid w
  = Some (Return (l1 ++ it :: l2), w1, t1) ->
  items !! j = Some row ->
  (forall s, get row "id" = VStr s -> s ∉ item_id <$> (l1 ++ it :: l2)) ->
  get row "slug" = VStr k -> k <> "" -> k <> "__proto__" ->
  item_slug it = Some k ->
  Forall (fun it' => item_slug it' <> Some k) l2 ->
  item_id it <> "" ->
  exists report w2 t answer,
    upsertItems remote data_items key_of_other fuel cid items isLive
      onProgress w = Some (Return report, w2, t)
    /\ row_calls t !! j
       = Some (UpdateItem cid (VStr (item_id it)) (delete "id" row) isLive,
               answer).
Proof.
  intros Hfetch Hj Hno Hslug Hk Hproto Hit Hl2 Hid.
  destruct (upsertItems_write_at fuel cid items isLive onProgress w _ _ _ j
              row Hfetch Hj) as (report & w2 & t & a & Hrun & Hc).
  exists report, w2, t, a. split; [exact Hrun|].
  rewrite Hc.
  rewrite (upsert_call_by_slug (l1 ++ it :: l2) cid isLive row k
             (item_id it)); try done.
  - by apply no_id_match.
  - by rewrite get_delete_id.
  - by apply slugToId_last_wins.
Qed.

(** X11. A row whose [id] names no existing item, and which has no truthy
    slug or has a string slug that no existing item carries and that is not
    the name of a member of [Object.prototype], is sent as a create, with the
    row without its [id] as field data. *)
Theorem upsert_creates_unmatched_row
    fuel cid items isLive onProgress w existing w1 t1 j row :
  getAllItems remote data_items fuel cid w = Some (Return existing, w1, t1) ->
  items !! j = Some row ->
  (forall s, get row "id" = VStr s -> s ∉ item_id <$> existing) ->
  (truthy (get row "slug") = false
   \/ exists k, get row "slug" = VStr k
                /\ Forall (fun it => item_slug it <> Some k) existing
                /\ k ∉ object_prototype_names) ->
  exists report w2 t answer,
    upsertItems remote data_items key_of_other fuel cid items isLive
      onProgress w = Some (Return report, w2, t)
    /\ row_calls t !! j
       = Some (CreateItem cid (delete "id" row) (negb isLive), answer).
Proof.
  intros Hfetch Hj Hno Hslug.
  destruct (upsertItems_write_at fuel cid items isLive onProgress w _ _ _ j
              row Hfetch Hj) as (report & w2 & t & a & Hrun & Hc).
  exists report, w2, t, a. split; [exact Hrun|].
  rewrite Hc, (upsert_call_create existing cid isLive row); try done.
  - by apply no_id_match.
  - rewrite get_delete_id by done.
    destruct Hslug as [?|(k & Hk & Hnone & Hproto)]; [by left|right].
    exists k. split; [done|]. split; [|done].
    apply slugToId_unknown_slug. intros it Hin.
    by apply (proj1 (Forall_forall _ _) Hnone).
Qed.

(** X12. The decision reads nothing of a row but its [id] and its [slug]:
    two rows of a batch that agree on both are both created, or both sent
    as updates of the same identifier. *)
Theorem upsert_decision_reads_only_id_and_slug
    fuel cid items isLive onProgress w existing w1 t1 j j' row row' :
  getAllItems remote data_items fuel cid w = Some (Return existing, w1, t1) ->
  items !! j = Some row -> items !! j' = Some row' ->
  get row "id" = get row' "id" -> get row "slug" = get row' "slug" ->
  exists report w2 t c answer c' answer',
    upsertItems remote data_items key_of_other fuel cid items isLive
      onProgress w = Some (Return report, w2, t)
    /\ row_calls t !! j = Some (c, answer)
    /\ row_calls t !! j' = Some (c', answer')
    /\ target_of c = target_of c'.
Proof.
  intros Hfetch Hj Hj' Hid Hslug.
  destruct (upsertItems_write_at fuel cid items isLive onProgress w _ _ _ j
              row Hfetch Hj) as (report & w2 & t & a & Hrun & Hc).
  destruct (upsertItems_write_at fuel cid items isLive onProgress w _ _ _ j'
              row' Hfetch Hj') as (report' & w2' & t' & a' & Hrun' & Hc').
  rewrite Hrun in Hrun'. injection Hrun' as <- <- <-.
  eexists report, w2, t, _, a, _, a'.
  split; [exact Hrun|]. split; [exact Hc|]. split; [exact Hc'|].
  assert (Ht : upsert_target (build_lookups existing).1
                 (build_lookups existing).2 row
               = upsert_target (build_lookups existing).1
                   (build_lookups existing).2 row').
  { unfold upsert_target, find_existing.
    by rewrite !get_delete_id, Hid, Hslug by done. }
  unfold upsert_call. rewrite Ht.
  by destruct (truthy _).
Qed.

(** X13. For rows that have neither an [id] key nor a [slug] key,
    [upsertItems] sends, after the fetch and whatever the existing items
    are, exactly the calls [createItems] sends: one create per row, in
    order, with the row as field data. *)
Theorem upsert_of_keyless_rows_creates_like_createItems
    fuel cid items isLive onProgress w existing w1 t1 :
  getAllItems remote data_items fuel cid w = Some (Return existing, w1, t1) ->
  Forall (fun row : obj => row !! "id" = None /\ row !! "slug" = None) items ->
  exists report w2 t,
    upsertItems remote data_items key_of_other fuel cid items isLive
      onProgress w = Some (Return report, w2, t)
    /\ (row_calls t).*1 = (fun row => CreateItem cid row (negb isLive)) <$> items
    /\ forall w0, (calls (createItems remote cid items isLive w0).2).*1
                  = (row_calls t).*1.
Proof.
  intros Hfetch Hrows.
  destruct (upsertItems_run fuel cid items isLive onProgress w _ _ _ Hfetch)
    as (report & t & Hrun & _ & _ & _ & _ & _ & Hcalls).
  eexists report, _, t. split; [exact Hrun|].
  assert (Hcs : upsert_call (build_lookups existing).1
                  (build_lookups existing).2 cid isLive <$> items
                = (fun row => CreateItem cid row (negb isLive)) <$> items).
  { apply Forall_fmap_ext_1. eapply Forall_impl; [exact Hrows|].
    intros row [Hid Hslug]. cbn beta.
    rewrite (upsert_call_create existing cid isLive row).
    - by rewrite delete_id.
    - unfold get at 1. by rewrite Hid.
    - left. rewrite get_delete_id by done. unfold get. by rewrite Hslug. }
  assert (Hfst : (row_calls t).*1
                 = (fun row => CreateItem cid row (negb isLive)) <$> items).
  { rewrite Hcalls, fst_zip; [done|]. by rewrite length_replay. }
  split; [exact Hfst|].
  intros w0. rewrite Hfst, createItems_calls, fst_zip; [done|].
  by rewrite length_replay.
Qed.

(** ** upsertItems: the action tags and the two counts *)

Lemma upsert_action_of_call slugToId idSet cid isLive row :
  upsert_action slugToId idSet row
  = if is_update (upsert_call slugToId idSet cid isLive row)
    then Updated else Created.
Proof. unfold upsert_action, upsert_call. by destruct (truthy _). Qed.

Lemma tagged_count slugToId idSet cid isLive (a : action) rows :
  forall i (answers : list (string + Data)),
  length (List.filter (has_action a)
            (successes (upsert_action slugToId idSet) i rows answers))
  = length (List.filter
              (fun ca => answered ca
                         && bool_decide
                              ((if is_update ca.1 then Updated else Created)
                               = a))
              (zip (upsert_call slugToId idSet cid isLive <$> rows) answers)).
Proof.
  induction rows as [|row rows IH]; intros i [|[e|d] answers]; try done.
  - cbn [successes fmap list_fmap zip zip_with List.filter answered snd andb].
    apply IH.
  - cbn [successes fmap list_fmap zip zip_with List.filter answered snd fst
         andb].
    unfold has_action at 1. cbn [r_action].
    rewrite (upsert_action_of_call slugToId idSet cid isLive row).
    case_bool_decide; cbn [length]; by rewrite IH.
Qed.

(** X20. The action tags tell what was sent: a row whose call succeeded is
    in the success list with its index, the answer, and the tag [updated]
    when the call was an update, [created] when it was a create; and the
    updated and created counts of the report are the numbers of update calls
    and of create calls that succeeded. *)
Theorem upsert_tags_and_counts_match_the_calls
    fuel cid items isLive onProgress w existing w1 t1 :
  getAllItems remote data_items fuel cid w = Some (Return existing, w1, t1) ->
  exists report w2 t,
    upsertItems remote data_items key_of_other fuel cid items isLive
      onProgress w = Some (Return report, w2, t)
    /\ (forall i row c d,
          items !! i = Some row -> row_calls t !! i = Some (c, inr d) ->
          ResultEntry i d (if is_update c then Updated else Created)
          ∈ u_results report)
    /\ u_updated report
       = length (List.filter (fun ca => answered ca && is_update ca.1)
                   (row_calls t))
    /\ u_created report
       = length (List.filter (fun ca => answered ca && negb (is_update ca.1))
                   (row_calls t)).
Proof.
  intros Hfetch.
  destruct (upsertItems_run fuel cid items isLive onProgress w _ _ _ Hfetch)
    as (report & t & Hrun & Hres & _ & _ & Hupd & Hcre & Hcalls).
  eexists report, _, t. split; [exact Hrun|].
  rewrite Hupd, Hcre, Hres, Hcalls. split; [|split].
  - intros i row c d Hi Hc. apply lookup_zip_Some in Hc as [Hc Ha].
    rewrite list_lookup_fmap, Hi in Hc. injection Hc as <-.
    rewrite <- upsert_action_of_call.
    by apply (success_recorded _ items 0 _ i row).
  - rewrite (tagged_count _ _ cid isLive). apply filter_length_ext_in.
    intros ca. by destruct (is_update ca.1), (answered ca).
  - rewrite (tagged_count _ _ cid isLive). apply filter_length_ext_in.
    intros ca. by destruct (is_update ca.1), (answered ca).
Qed.

(** * The client with a callback that may throw *)

Lemma upsertItems_row_run slugToId idSet cid isLive onProgress n i row w acc :
  let c := upsert_call slugToId idSet cid isLive row in
  upsertItems_row remote key_of_other slugToId idSet cid isLive onProgress
    n i row (w, acc)
  = (Return tt,
     ((remote w c).1,
      (acc.1 ++ successes (upsert_action slugToId idSet) i [row]
                  [(remote w c).2],
       acc.2 ++ failures_calling onProgress n i [row] [(remote w c).2])),
     upsert_events onProgress n i [(c, (remote w c).2)]).
Proof.
  unfold upsertItems_row, upsert_call, upsert_action, upsert_target,
    try_catch, bind, updateItem, createItem, request, remote_with_arrays,
    push_result, push_error, call_onProgress, sleep, ret.
  cbv zeta.
  destruct (truthy (find_existing _ _ _ _ _)) eqn:E; cbn [fst snd];
    destruct (remote w _) as [w1 [e|d]]; cbn [fst snd];
    cbn [successes failures_calling upsert_events answered snd fst];
    rewrite ?E, ?app_nil_r; try reflexivity;
    destruct onProgress as [f|]; cbn [thrown notice];
    try destruct (f _) as [msg|]; destruct (i <? n - 1)%nat;
    cbn [app]; rewrite ?app_nil_r; reflexivity.
Qed.

Lemma upsertItems_rows_run slugToId idSet cid isLive onProgress n rows :
  forall i w acc,
  let cs := upsert_call slugToId idSet cid isLive <$> rows in
  upsertItems_rows remote key_of_other slugToId idSet cid isLive onProgress
    n i rows (w, acc)
  = (Return tt,
     ((replay w cs).2,
      (acc.1 ++ successes (upsert_action slugToId idSet) i rows
                  (replay w cs).1,
       acc.2 ++ failures_calling onProgress n i rows (replay w cs).1)),
     upsert_events onProgress n i (zip cs (replay w cs).1)).
Proof.
  induction rows as [|row rows IH]; intros i w acc.
  - cbn. by rewrite !app_nil_r, <- surjective_pairing.
  - cbn [upsertItems_rows]. unfold bind at 1.
    rewrite upsertItems_row_run, IH.
    cbn [fmap list_fmap replay].
    destruct (remote w _) as [w1 a]. cbn [fst snd].
    destruct (replay w1 _) as [answers w2]. cbn [fst snd zip zip_with].
    f_equal; [f_equal; f_equal; f_equal|].
    + destruct a; cbn [successes]; by rewrite <- ?app_assoc, ?app_nil_r.
    + destruct a; cbn [failures_calling];
        [by rewrite <- app_assoc|].
      destruct (thrown _ _); by rewrite <- ?app_assoc, ?app_nil_r.
    + cbn [upsert_events fst snd app]. by rewrite app_nil_r.
Qed.

Lemma failures_calling_lower onProgress n rows : forall i answers,
  Forall (fun r => i <= e_index r) (failures_calling onProgress n i rows answers).
Proof.
  induction rows as [|row rows IH]; intros i [|[e|d] answers]; simpl;
    try by constructor.
  - constructor; [simpl; lia|].
    eapply Forall_impl; [apply IH|]. simpl. lia.
  - destruct (thrown _ _).
    + constructor; [simpl; lia|].
      eapply Forall_impl; [apply IH|]. simpl. lia.
    + eapply Forall_impl; [apply IH|]. simpl. lia.
Qed.

Lemma failures_calling_sorted onProgress n rows : forall i answers,
  StronglySorted lt (e_index <$> failures_calling onProgress n i rows answers).
Proof.
  induction rows as [|row rows IH]; intros i [|[e|d] answers]; simpl;
    try by constructor.
  - constructor; [apply IH|].
    apply Forall_fmap.
    eapply Forall_impl; [apply (failures_calling_lower _ _ rows (S i))|].
    simpl. lia.
  - destruct (thrown _ _); [|apply IH].
    cbn [fmap list_fmap e_index]. constructor; [apply IH|].
    apply Forall_fmap.
    eapply Forall_impl; [apply (failures_calling_lower _ _ rows (S i))|].
    simpl. lia.
Qed.

Lemma upsertItems_calling_run
    fuel cid items isLive onProgress w existing w1 t1 :
  getAllItems remote data_items fuel cid w = Some (Return existing, w1, t1) ->
  thrown onProgress Fetching = None ->
  thrown onProgress (Found (length existing)) = None ->
  let slugToId := (build_lookups existing).1 in
  let idSet := (build_lookups existing).2 in
  let cs := upsert_call slugToId idSet cid isLive <$> items in
  let answers := (replay w1 cs).1 in
  exists report,
    upsertItems_calling remote data_items key_of_other fuel cid items isLive
      onProgress w
    = Some (Return report, (replay w1 cs).2,
            notice onProgress Fetching ++ t1
            ++ notice onProgress (Found (length existing))
            ++ upsert_events onProgress (length items) 0 (zip cs answers))
    /\ u_results report
       = successes (upsert_action slugToId idSet) 0 items answers
    /\ u_errors report
       = failures_calling onProgress (length items) 0 items answers
    /\ u_total report = length items
    /\ u_updated report
       = length (List.filter (has_action Updated) (u_results report))
    /\ u_created report
       = length (List.filter (has_action Created) (u_results report)).
Proof.
  intros Hfetch Hf1 Hf2 slugToId idSet cs answers.
  unfold upsertItems_calling, call_onProgress.
  subst slugToId idSet cs answers.
  destruct onProgress as [f|]; cbn [thrown notice] in *;
    rewrite ?Hf1, Hfetch; destruct (build_lookups existing) as [s ids];
    rewrite ?Hf2, upsertItems_rows_run; cbn [fst snd app];
    eexists; (split; [reflexivity|]); by repeat split.
Qed.

(** On the callbacks that return, [upsertItems_calling] is [upsertItems]. *)

Lemma failures_calling_returning onProgress n rows :
  (forall p, thrown onProgress p = None) ->
  forall i answers,
  failures_calling onProgress n i rows answers = failures i rows answers.
Proof.
  intros Hret. induction rows as [|row rows IH]; intros i [|[e|d] answers];
    cbn [failures_calling failures]; rewrite ?Hret, ?IH; reflexivity.
Qed.

Lemma upsertItems_loop_trace slugToId idSet cid isLive onProgress n rows :
  (forall p, thrown onProgress p = None) ->
  forall i acc w,
  (upsertItems_loop remote key_of_other slugToId idSet cid isLive
     (passed onProgress) n i rows acc w).2
  = upsert_events onProgress n i
      (zip (upsert_call slugToId idSet cid isLive <$> rows)
         (replay w (upsert_call slugToId idSet cid isLive <$> rows)).1).
Proof.
  intros Hret. induction rows as [|row rows IH]; intros i acc w; [done|].
  destruct (upsertItems_loop_cons slugToId idSet cid isLive
              (passed onProgress) n i row rows acc w)
    as [acc' ->].
  rewrite IH, upsertItems_step_events.
  cbn [fmap list_fmap replay].
  destruct (remote w _) as [w1 a]. cbn [fst snd].
  destruct (replay w1 _) as [answers w2]. cbn [fst snd zip zip_with].
  cbn [upsert_events fst snd answered]. rewrite Hret.
  destruct a as [e|d]; [reflexivity|].
  by destruct onProgress.
Qed.

Lemma upsertItems_calling_returning fuel cid items isLive onProgress w :
  (forall p, thrown onProgress p = None) ->
  upsertItems_calling remote data_items key_of_other fuel cid items isLive
    onProgress w
  = upsertItems remote data_items key_of_other fuel cid items isLive
      (passed onProgress) w.
Proof.
  intros Hret.
  unfold upsertItems_calling, upsertItems, call_onProgress, notify.
  assert (Hf : forall (w' : World) p,
            match onProgress with
            | Some f =>
                (match f p with
                 | None => Return tt
                 | Some message => Throw message
                 end, w', [EvProgress p])
            | None => (Return tt, w', [])
            end
            = (Return tt, w',
               if passed onProgress then [@EvProgress Data p] else [])).
  { intros w' p. specialize (Hret p). destruct onProgress as [f|]; [|done].
    cbn [thrown] in Hret. by rewrite Hret. }
  rewrite Hf.
  destruct (getAllItems _ _ _ _ _) as [[[[existing|e] w1] t1]|]; try done.
  unfold upsertItems_with.
  destruct (build_lookups existing) as [s ids].
  rewrite Hf, upsertItems_rows_run. unfold bind at 1. cbn [notify].
  unfold bind at 1.
  destruct (upsertItems_loop_run s ids cid isLive (passed onProgress)
              (length items) items 0 ([], []) w1) as (t2 & Hrun & _).
  pose proof (upsertItems_loop_trace s ids cid isLive onProgress
                (length items) items Hret 0 ([], []) w1) as Ht.
  rewrite Hrun in Ht. cbn [snd] in Ht. subst t2. rewrite Hrun.
  cbn [ret fst snd app].
  by rewrite (failures_calling_returning _ _ _ Hret), app_nil_r.
Qed.

(** ** Runs with the caller's own callback *)



(** The rows filed in both lists are the rows whose write succeeded and on
    whose notice the callback threw. *)
Lemma indices_calling onProgress act n rows : forall i answers,
  length answers = length rows ->
  (r_index <$> successes act i rows answers)
    ++ (e_index <$> failures_calling onProgress n i rows answers)
  ≡ₚ seq i (length rows)
     ++ (r_index
           <$> List.filter
                 (fun r =>
                    negb (bool_decide
                            (thrown onProgress (Processed (r_index r + 1) n)
                             = None)))
                 (successes act i rows answers)).
Proof.
  induction rows as [|row rows IH]; intros i [|[e|d] answers] Hlen;
    simpl in *; try done.
  - rewrite <- Permutation_middle. constructor. apply IH. lia.
  - destruct (thrown onProgress (Processed (i + 1) n)) eqn:Hf.
    + rewrite bool_decide_eq_false_2 by done. cbn [negb fmap list_fmap].
      cbn [r_index e_index].
      constructor. rewrite <- !Permutation_middle. constructor.
      apply IH. lia.
    + rewrite bool_decide_eq_true_2 by done. cbn [negb].
      constructor. apply IH. lia.
Qed.

(** The bookkeeping of [upsertItems] with any callback: every row index
    occurs once across the two lists, and once more for each row whose
    write succeeded and on whose notice the callback threw; the counts add
    up to the number of rows plus the number of these rows. *)
Lemma upsert_accounts_with_callback
    fuel cid items isLive onProgress w existing w1 t1 :
  getAllItems remote data_items fuel cid w = Some (Return existing, w1, t1) ->
  thrown onProgress Fetching = None ->
  thrown onProgress (Found (length existing)) = None ->
  exists report w2 t,
    upsertItems_calling remote data_items key_of_other fuel cid items isLive
      onProgress w = Some (Return report, w2, t)
    /\ (let twice :=
          List.filter
            (fun r =>
               negb (bool_decide
                       (thrown onProgress
                          (Processed (r_index r + 1) (length items))
                        = None)))
            (u_results report) in
        (r_index <$> u_results report) ++ (e_index <$> u_errors report)
        ≡ₚ seq 0 (length items) ++ (r_index <$> twice)
        /\ u_created report + u_updated report + length (u_errors report)
           = length items + length twice)
    /\ u_total report = length items.
Proof.
  intros Hfetch Hf1 Hf2.
  destruct (upsertItems_calling_run fuel cid items isLive onProgress w
              _ _ _ Hfetch Hf1 Hf2)
    as (report & Hrun & Hres & Herr & Htot & Hupd & Hcre).
  eexists report, _, _. split; [exact Hrun|]. split; [|exact Htot].
  cbv zeta.
  assert (Hperm := indices_calling onProgress
            (upsert_action (build_lookups existing).1
               (build_lookups existing).2)
            (length items) items 0
            (replay w1 (upsert_call (build_lookups existing).1
                          (build_lookups existing).2 cid isLive <$> items)).1).
  rewrite length_replay, length_fmap in Hperm. specialize (Hperm eq_refl).
  rewrite <- Hres, <- Herr in Hperm. split; [exact Hperm|].
  apply Permutation_length in Hperm.
  rewrite !length_app, !length_fmap, length_seq in Hperm.
  rewrite Hupd, Hcre, actions_split. exact Hperm.
Qed.

(** A run of [upsertItems] that returns a report has fetched the existing
    items, and its callback has returned on the first two notices. *)
Lemma upsertItems_calling_returned
    fuel cid items isLive onProgress w report w2 t :
  upsertItems_calling remote data_items key_of_other fuel cid items isLive
    onProgress w = Some (Return report, w2, t) ->
  exists existing w1 t1,
    getAllItems remote data_items fuel cid w = Some (Return existing, w1, t1)
    /\ thrown onProgress Fetching = None
    /\ thrown onProgress (Found (length existing)) = None.
Proof.
  unfold upsertItems_calling, call_onProgress. intros H.
  destruct onProgress as [f|]; cbn [thrown].
  - destruct (f Fetching) eqn:Hf1; [discriminate|].
    destruct (getAllItems remote data_items fuel cid w)
      as [[[[existing|e] w1] t1]|]; try discriminate.
    destruct (build_lookups existing) as [slugs ids].
    destruct (f (Found (length existing))) eqn:Hf2; [discriminate|].
    by eexists _, _, _.
  - destruct (getAllItems remote data_items fuel cid w)
      as [[[[existing|e] w1] t1]|]; try discriminate.
    by eexists _, _, _.
Qed.

(** C9. In the report of [createItems], which always returns one, and in
    the report of [upsertItems] whenever it returns one, with whatever
    progress callback (returning or throwing), the success list and the
    error list are each in strictly increasing order of row index.
    [upsertItems] does return a report as soon as the existing items have
    been fetched and its callback has returned on the two notices before
    the rows. *)
Theorem bulk_lists_follow_row_order cid items isLive :
  (forall w, exists report w2 t,
      createItems remote cid items isLive w = (Return report, w2, t)
      /\ StronglySorted lt (r_index <$> c_results report)
      /\ StronglySorted lt (e_index <$> c_errors report))
  /\ (forall fuel onProgress w report w2 t,
        upsertItems_calling remote data_items key_of_other fuel cid items
          isLive onProgress w = Some (Return report, w2, t) ->
        StronglySorted lt (r_index <$> u_results report)
        /\ StronglySorted lt (e_index <$> u_errors report))
  /\ (forall fuel onProgress w existing w1 t1,
        getAllItems remote data_items fuel cid w
        = Some (Return existing, w1, t1) ->
        thrown onProgress Fetching = None ->
        thrown onProgress (Found (length existing)) = None ->
        exists report w2 t,
          upsertItems_calling remote data_items key_of_other fuel cid items
            isLive onProgress w = Some (Return report, w2, t)).
Proof.
  split; [|split].
  - intros w.
    destruct (createItems_run cid items isLive w)
      as (report & t & Hrun & Hres & Herr & _).
    eexists report, _, t. split; [exact Hrun|]. rewrite Hres, Herr.
    split; [apply successes_sorted | apply failures_sorted].
  - intros fuel onProgress w report w2 t Hrun.
    destruct (upsertItems_calling_returned _ _ _ _ _ _ _ _ _ Hrun)
      as (existing & w1 & t1 & Hfetch & Hf1 & Hf2).
    destruct (upsertItems_calling_run fuel cid items isLive onProgress w
                _ _ _ Hfetch Hf1 Hf2) as (report' & Hrun' & Hres & Herr & _).
    rewrite Hrun in Hrun'. injection Hrun' as -> _ _.
    rewrite Hres, Herr.
    split; [apply successes_sorted | apply failures_calling_sorted].
  - intros fuel onProgress w existing w1 t1 Hfetch Hf1 Hf2.
    destruct (upsertItems_calling_run fuel cid items isLive onProgress w
                _ _ _ Hfetch Hf1 Hf2) as (report & Hrun & _).
    by eexists report, _, _.
Qed.


End Runs.

(** ** The importer: dry run and transformation *)

Lemma classes_cover rows :
  count_class HasId rows + count_class SlugOnly rows
  + count_class Neither rows = length rows.
Proof.
  unfold count_class. induction rows as [|d rows IH]; [done|].
  simpl. destruct (classify d); simpl; lia.
Qed.

Lemma filter_length_ext {A} (f g : A -> bool) (l : list A) :
  (forall x, f x = g x) ->
  length (List.filter f l) = length (List.filter g l).
Proof.
  intros Hfg. induction l as [|x l IH]; [done|].
  simpl. rewrite Hfg. destruct (g x); simpl; lia.
Qed.

Lemma dry_run_counts rows isUpdateMode :
  itemsWithId (dry_run rows isUpdateMode) = count_class HasId rows
  /\ itemsWithSlug (dry_run rows isUpdateMode) = count_class SlugOnly rows
  /\ itemsNew (dry_run rows isUpdateMode)
     = Z.of_nat (count_class Neither rows).
Proof.
  assert (H1 : itemsWithId (dry_run rows isUpdateMode)
               = count_class HasId rows).
  { apply filter_length_ext. intros d. unfold classify.
    by destruct (truthy (get d "id")), (truthy (get d "slug")). }
  assert (H2 : itemsWithSlug (dry_run rows isUpdateMode)
               = count_class SlugOnly rows).
  { apply filter_length_ext. intros d. unfold classify.
    by destruct (truthy (get d "id")), (truthy (get d "slug")). }
  repeat split; try done.
  pose proof (classes_cover rows) as Hc.
  change (itemsNew (dry_run rows isUpdateMode))
    with (Z.of_nat (length rows)
          - Z.of_nat (itemsWithId (dry_run rows isUpdateMode))
          - Z.of_nat (itemsWithSlug (dry_run rows isUpdateMode)))%Z.
  rewrite H1, H2. lia.
Qed.

(** C6. When [runImport] takes the dry-run branch, it sends nothing to the
    remote (the state of the remote is untouched and the run has no event)
    and its result is [dry_run] of the transformed rows, a function of these
    rows and of the mode flag alone.  With the rows classified by the tests
    of the code (truthy [id]; truthy [slug] and no truthy [id]; neither),
    the three counts are the sizes of the three classes, they add up to the
    total, which is the number of rows, and the preview is the first five
    transformed rows. *)
Theorem dry_run_previews_without_remote_calls
    {World Data : Type}
    (remote : World -> api_call -> World * (string + Data))
    (data_items : Data -> option (list item))
    (key_of_other : value -> string)
    fuel cid row rows fieldMapping isDryRun isUpdateMode dryRunOverride w :
  (if bool_decide (dryRunOverride = VUndefined) then isDryRun
   else truthy dryRunOverride) = true ->
  let transformedData := transformData (row :: rows) fieldMapping isUpdateMode in
  let preview := dry_run transformedData isUpdateMode in
  runImport remote data_items key_of_other fuel (Some cid)
    (Some (row :: rows)) fieldMapping isDryRun isUpdateMode dryRunOverride w
  = Some (DryRun preview, w, [])
  /\ itemsWithId preview = count_class HasId transformedData
  /\ itemsWithSlug preview = count_class SlugOnly transformedData
  /\ itemsNew preview = Z.of_nat (count_class Neither transformedData)
  /\ (Z.of_nat (itemsWithId preview) + Z.of_nat (itemsWithSlug preview)
      + itemsNew preview = Z.of_nat (d_total preview))%Z
  /\ d_total preview = length (row :: rows)
  /\ d_preview preview = take 5 transformedData.
Proof.
  intros Hdry transformedData preview.
  destruct (dry_run_counts transformedData isUpdateMode) as (H1 & H2 & H3).
  split; [unfold runImport; by rewrite Hdry|].
  repeat split; try done.
  - subst preview. rewrite H1, H2, H3.
    pose proof (classes_cover transformedData) as Hc.
    cbn [d_total dry_run]. lia.
  - subst preview transformedData. cbn [d_total dry_run].
    unfold transformData. by rewrite length_fmap.
Qed.

(** *** The [id] key of a transformed row *)

Lemma inherited_id : inherited "id" = VUndefined.
Proof. reflexivity. Qed.

Lemma set_prop_other (o : obj) k v k' :
  k <> k' -> set_prop o k v !! k' = o !! k'.
Proof.
  intros Hk. unfold set_prop. case_bool_decide; [done|].
  by rewrite lookup_insert_ne.
Qed.

Lemma mapping_keeps_id row (fieldMapping : list (string * string)) :
  Forall (fun st => st.2 <> "id") fieldMapping ->
  forall transformed : obj,
  fold_left
    (fun transformed '(source, target) =>
       if truthy (VStr target)
          && negb (bool_decide (get row source = VUndefined))
       then set_prop transformed target (get row source)
       else transformed)
    fieldMapping transformed !! "id"
  = transformed !! "id".
Proof.
  induction 1 as [|[source target] fieldMapping Hst _ IH]; intros tr; [done|].
  simpl. rewrite IH.
  destruct (_ && _); [|done]. by apply set_prop_other.
Qed.

(** C10, the claim as stated fails: with a field mapped onto the
    destination slug [id], a row transformed in create-only mode has an [id]
    key, and the dry run counts it as a row with an id. *)
Lemma transformData_id_from_mapping :
  let transformed :=
    transformData [ {[ "ref" := VStr "r1" ]} ] [("ref", "id")] false in
  transformed = [ {[ "id" := VStr "r1" ]} ]
  /\ itemsWithId (dry_run transformed false) = 1.
Proof. vm_compute. split; reflexivity. Qed.

(** C10, amended.  When no entry of the field mapping has [id] as its
    destination: a transformed row has an [id] key exactly when update mode
    is on and the source row's [id] is truthy, and the key then holds the
    source row's [id]; so with update mode off no transformed row has an
    [id] key, and the dry run reports no row with an id. *)
Theorem transformData_id_only_in_update_mode
    parsedData (fieldMapping : list (string * string)) isUpdateMode :
  Forall (fun st => st.2 <> "id") fieldMapping ->
  (forall j row, parsedData !! j = Some row ->
     exists transformed,
       transformData parsedData fieldMapping isUpdateMode !! j
       = Some transformed
       /\ transformed !! "id"
          = (if isUpdateMode && truthy (get row "id")
             then Some (get row "id") else None))
  /\ (isUpdateMode = false ->
      Forall (fun transformed : obj => transformed !! "id" = None)
        (transformData parsedData fieldMapping isUpdateMode)
      /\ itemsWithId
           (dry_run (transformData parsedData fieldMapping isUpdateMode)
              isUpdateMode) = 0).
Proof.
  intros Hmap.
  assert (Hrow : forall j row, parsedData !! j = Some row ->
     exists transformed,
       transformData parsedData fieldMapping isUpdateMode !! j
       = Some transformed
       /\ transformed !! "id"
          = (if isUpdateMode && truthy (get row "id")
             then Some (get row "id") else None)).
  { intros j row Hj. unfold transformData.
    rewrite list_lookup_fmap, Hj. simpl. eexists. split; [reflexivity|].
    rewrite (mapping_keeps_id row fieldMapping Hmap).
    destruct (isUpdateMode && truthy (get row "id")); [|done].
    unfold set_prop. simpl. by rewrite lookup_insert_eq. }
  split; [exact Hrow|]. intros ->.
  assert (Hall : Forall (fun transformed : obj => transformed !! "id" = None)
                   (transformData parsedData fieldMapping false)).
  { apply Forall_lookup. intros j tr Hj.
    assert (Hlt : j < length parsedData).
    { apply lookup_lt_Some in Hj. unfold transformData in Hj.
      by rewrite length_fmap in Hj. }
    destruct (lookup_lt_is_Some_2 _ _ Hlt) as [row Hrowj].
    destruct (Hrow j row Hrowj) as (tr' & Htr' & Hid). simpl in Hid.
    congruence. }
  split; [exact Hall|].
  cbn [itemsWithId dry_run]. clear Hrow.
  induction Hall as [|tr trs Htr _ IH]; [done|].
  simpl. unfold get at 1. rewrite Htr, inherited_id. simpl. exact IH.
Qed.

Lemma upsert_accounts_for_every_row_witness :
  getAllItems scripted Some 1 "c" failing_script
  = Some (Return [], [inl "Too Many Requests"; inr []],
          [EvCall (GetItems "c" (Some 100) None) (inr [])])
  /\ exists report w2 t,
       upsertItems scripted Some no_key 1 "c" two_rows true false
         failing_script = Some (Return report, w2, t)
       /\ (r_index <$> u_results report) ++ (e_index <$> u_errors report)
          ≡ₚ seq 0 (length two_rows)
       /\ u_created report + u_updated report + length (u_errors report)
          = u_total report
       /\ u_total report = length two_rows.
Proof.
  split; [reflexivity|].
  eapply (upsert_accounts_for_every_row scripted Some no_key 1 "c" two_rows
            true false failing_script).
  reflexivity.
Defined.

Lemma upsert_failure_is_recorded_and_skipped_witness :
  getAllItems scripted Some 1 "c" failing_script
  = Some (Return [], [inl "Too Many Requests"; inr []],
          [EvCall (GetItems "c" (Some 100) None) (inr [])])
  /\ exists report w2 t,
       upsertItems scripted Some no_key 1 "c" two_rows true false
         failing_script = Some (Return report, w2, t)
       /\ length (row_calls t) = length two_rows
       /\ (forall j row, two_rows !! j = Some row ->
             (exists c answer,
                 row_calls t !! j = Some (c, answer)
                 /\ payload c = Some (delete "id" row))
             /\ j ∈ (r_index <$> u_results report)
                      ++ (e_index <$> u_errors report))
       /\ (forall i row c message,
             two_rows !! i = Some row ->
             row_calls t !! i = Some (c, inl message) ->
             ErrorEntry i message row ∈ u_errors report).
Proof.
  split; [reflexivity|].
  eapply (upsert_failure_is_recorded_and_skipped scripted Some no_key 1 "c"
            two_rows true false failing_script).
  reflexivity.
Defined.

Lemma upsert_payload_is_row_without_id_witness :
  getAllItems scripted Some 1 "c" failing_script
  = Some (Return [], [inl "Too Many Requests"; inr []],
          [EvCall (GetItems "c" (Some 100) None) (inr [])])
  /\ exists report w2 t,
       upsertItems scripted Some no_key 1 "c" two_rows true false
         failing_script = Some (Return report, w2, t)
       /\ forall j row, two_rows !! j = Some row ->
            exists c answer fieldData,
              row_calls t !! j = Some (c, answer)
              /\ payload c = Some fieldData
              /\ fieldData = delete "id" row
              /\ fieldData !! "id" = None
              /\ forall k, k <> "id" -> fieldData !! k = row !! k.
Proof.
  split; [reflexivity|].
  eapply (upsert_payload_is_row_without_id scripted Some no_key 1 "c"
            two_rows true false failing_script).
  reflexivity.
Defined.

Lemma bulk_lists_follow_row_order_witness :
  (forall w, exists report w2 t,
      createItems scripted "c" two_rows true w = (Return report, w2, t)
      /\ StronglySorted lt (r_index <$> c_results report)
      /\ StronglySorted lt (e_index <$> c_errors report))
  /\ getAllItems scripted Some 1 "c" failing_script
     = Some (Return [], [inl "Too Many Requests"; inr []],
             [EvCall (GetItems "c" (Some 100) None) (inr [])])
  /\ thrown (Some throwing_on_second) Fetching = None
  /\ thrown (Some throwing_on_second) (Found 0) = None
  /\ (exists report w2 t,
        upsertItems_calling scripted Some no_key 1 "c" two_rows true
          (Some throwing_on_second) failing_script
        = Some (Return report, w2, t)
        /\ StronglySorted lt (r_index <$> u_results report)
        /\ StronglySorted lt (e_index <$> u_errors report)).
Proof.
  destruct (bulk_lists_follow_row_order scripted Some no_key "c" two_rows
              true) as (Hcreate & Hsorted & Hreturns).
  split; [exact Hcreate|].
  split; [reflexivity|]. split; [reflexivity|]. split; [reflexivity|].
  destruct (Hreturns 1 (Some throwing_on_second) failing_script []
              [inl "Too Many Requests"; inr []]
              [EvCall (GetItems "c" (Some 100) None) (inr [])]
              eq_refl eq_refl eq_refl) as (report & w2 & t & Hrun).
  exists report, w2, t. split; [exact Hrun|].
  exact (Hsorted 1 (Some throwing_on_second) failing_script report w2 t
           Hrun).
Defined.

Lemma upsert_worked_example_witness :
  getAllItems fixed_store Some 1 "c" example_existing
  = Some (Return example_existing, example_existing,
          [EvCall (GetItems "c" (Some 100) None) (inr example_existing)])
  /\ (forall w c, is_listing c = false ->
        exists d, (fixed_store w c).2 = inr d)
  /\ exists report w2 t d0 d1 d2,
       upsertItems fixed_store Some no_key 1 "c" example_rows true true
         example_existing = Some (Return report, w2, t)
       /\ row_calls t
          = [ (UpdateItem "c" (VStr "a1") {[ "title" := VStr "X" ]} true,
               inr d0);
              (UpdateItem "c" (VStr "other")
                 {[ "slug" := VStr "y"; "title" := VStr "Y" ]} true,
               inr d1);
              (CreateItem "c" {[ "title" := VStr "Z" ]} (negb true),
               inr d2) ]
       /\ u_results report
          = [ ResultEntry 0 d0 Updated; ResultEntry 1 d1 Updated;
              ResultEntry 2 d2 Created ]
       /\ u_created report = 1
       /\ u_updated report = 2
       /\ u_errors report = []
       /\ u_total report = 3.
Proof.
  assert (Hok : forall w c, is_listing c = false ->
                  exists d, (fixed_store w c).2 = inr d).
  { intros w [cid l o|cid fd dr|cid i fd lv] Hc; [discriminate| |];
      by exists []. }
  split; [reflexivity|]. split; [exact Hok|].
  eapply (upsert_worked_example fixed_store Some no_key 1 "c" true true
            example_existing); [reflexivity | exact Hok].
Defined.

Lemma getAllItems_reads_until_short_page_witness :
  listing fixed_store Some "c" 0 paged_store paged_pages paged_store
  /\ (exists full short,
         paged_pages = full ++ [short]
         /\ Forall (fun p => 100 <= length p) full
         /\ length short < 100)
  /\ (forall fuel, 3 <= fuel ->
        exists t,
          getAllItems fixed_store Some fuel "c" paged_store
          = Some (Return paged_store, paged_store, t)
          /\ (calls t).*1
             = [ GetItems "c" (Some 100) None;
                 GetItems "c" (Some 100) (Some 100);
                 GetItems "c" (Some 100) (Some 200) ]
          /\ page_of Some <$> (calls t).*2 = paged_pages)
  /\ (forall fuel, fuel < 3 ->
        getAllItems fixed_store Some fuel "c" paged_store = None).
Proof.
  assert (Hl : listing fixed_store Some "c" 0 paged_store paged_pages
                 paged_store).
  { apply (listing_full fixed_store Some "c" 0 paged_store paged_store
             (replicate 100 (Item "a" None))
             [replicate 100 (Item "b" None); [Item "z" None]] paged_store);
      [reflexivity | vm_compute; lia |].
    apply (listing_full fixed_store Some "c" 100 paged_store paged_store
             (replicate 100 (Item "b" None)) [[Item "z" None]] paged_store);
      [reflexivity | vm_compute; lia |].
    apply (listing_short fixed_store Some "c" 200 paged_store paged_store
             [Item "z" None]); [reflexivity | vm_compute; lia]. }
  split; [exact Hl|].
  exact (getAllItems_reads_until_short_page fixed_store Some "c"
           paged_store paged_pages paged_store Hl).
Defined.

Lemma dry_run_previews_without_remote_calls_witness :
  (if bool_decide (VBool true = VUndefined) then false
   else truthy (VBool true)) = true
  /\ let transformedData :=
       transformData example_rows [("title", "name")] true in
     let preview := dry_run transformedData true in
     runImport scripted Some no_key 0 (Some "c") (Some example_rows)
       [("title", "name")] false true (VBool true) []
     = Some (DryRun preview, [], [])
     /\ itemsWithId preview = count_class HasId transformedData
     /\ itemsWithSlug preview = count_class SlugOnly transformedData
     /\ itemsNew preview = Z.of_nat (count_class Neither transformedData)
     /\ (Z.of_nat (itemsWithId preview) + Z.of_nat (itemsWithSlug preview)
         + itemsNew preview = Z.of_nat (d_total preview))%Z
     /\ d_total preview = length example_rows
     /\ d_preview preview = take 5 transformedData.
Proof.
  split; [reflexivity|].
  apply (dry_run_previews_without_remote_calls scripted Some no_key 0 "c"
           {[ "id" := VStr "a1"; "title" := VStr "X" ]}
           [ {[ "slug" := VStr "y"; "title" := VStr "Y" ]};
             {[ "title" := VStr "Z" ]} ]
           [("title", "name")] false true (VBool true) []).
  reflexivity.
Defined.

Lemma transformData_id_only_in_update_mode_witness :
  Forall (fun st : string * string => st.2 <> "id") [("title", "name")]
  /\ (forall j row, example_rows !! j = Some row ->
        exists transformed,
          transformData example_rows [("title", "name")] false !! j
          = Some transformed
          /\ transformed !! "id"
             = (if false && truthy (get row "id")
                then Some (get row "id") else None))
  /\ (false = false ->
      Forall (fun transformed : obj => transformed !! "id" = None)
        (transformData example_rows [("title", "name")] false)
      /\ itemsWithId
           (dry_run (transformData example_rows [("title", "name")] false)
              false) = 0).
Proof.
  assert (Hm : Forall (fun st : string * string => st.2 <> "id")
                 [("title", "name")]).
  { repeat constructor. simpl. discriminate. }
  split; [exact Hm|].
  exact (transformData_id_only_in_update_mode example_rows
           [("title", "name")] false Hm).
Defined.

(** ** Where the code departs from the specification *)

(** C1.  An empty collection has no item whose slug is ["constructor"], and
    the row carries no [id]; yet the write sent for the row is an update,
    aimed at the [constructor] member that the plain object [slugToId]
    inherits.  The remote knows no such item: the row ends in the error
    list, and no create is ever sent for it. *)
Theorem upsert_updates_on_inherited_slug :
  let row : obj := {[ "slug" := VStr "constructor"; "title" := VStr "T" ]} in
  exists report w t,
    upsertItems scripted Some no_key 1 "c" [row] true false
      [inr []; inl "Not Found"]
    = Some (Return report, w, t)
    /\ row_calls t
       = [ (UpdateItem "c" (VBuiltin "constructor") row true,
            inl "Not Found") ]
    /\ u_created report = 0
    /\ u_errors report = [ErrorEntry 0 "Not Found" row].
Proof. vm_compute. eexists _, _, _. repeat split; reflexivity. Qed.

(** C8.  Two rows, the first write failing: the second write follows the
    first with no delay in between.  When the first write succeeds the
    200 ms delay is there. *)
Theorem upsert_skips_delay_after_failure :
  (exists report w,
      upsertItems scripted Some no_key 1 "c" two_rows true false
        failing_script
      = Some (Return report, w,
              [ EvCall (GetItems "c" (Some 100) None) (inr []);
                EvCall (CreateItem "c" {[ "title" := VStr "A" ]} false)
                  (inl "Too Many Requests");
                EvCall (CreateItem "c" {[ "title" := VStr "B" ]} false)
                  (inr []) ]))
  /\ (exists report w,
        upsertItems scripted Some no_key 1 "c" two_rows true false
          [inr []; inr []; inr []]
        = Some (Return report, w,
                [ EvCall (GetItems "c" (Some 100) None) (inr []);
                  EvCall (CreateItem "c" {[ "title" := VStr "A" ]} false)
                    (inr []);
                  EvDelay 200;
                  EvCall (CreateItem "c" {[ "title" := VStr "B" ]} false)
                    (inr []) ])).
Proof. split; vm_compute; eexists _, _; reflexivity. Qed.

(** C2.  Two rows, both writes accepted, and a progress callback that
    throws when told of the second processed row: the second row is pushed
    to the success list, and then, by the [catch] its callback's throw
    lands in, to the error list as well.  Index 1 occurs twice across the
    two lists and [created + updated + |errors| = 3] while [total = 2]. *)
Theorem upsert_files_row_twice_when_callback_throws :
  exists report w t,
    upsertItems_calling scripted Some no_key 1 "c" two_rows true
      (Some throwing_on_second) [inr []; inr []; inr []]
    = Some (Return report, w, t)
    /\ u_results report
       = [ResultEntry 0 [] Created; ResultEntry 1 [] Created]
    /\ u_errors report
       = [ErrorEntry 1 "render failed" {[ "title" := VStr "B" ]}]
    /\ (r_index <$> u_results report) ++ (e_index <$> u_errors report)
       = [0; 1; 1]
    /\ u_total report = 2
    /\ u_created report + u_updated report + length (u_errors report) = 3
    /\ t = [ EvProgress Fetching;
             EvCall (GetItems "c" (Some 100) None) (inr []);
             EvProgress (Found 0);
             EvCall (CreateItem "c" {[ "title" := VStr "A" ]} false) (inr []);
             EvProgress (Processed 1 2);
             EvDelay 200;
             EvCall (CreateItem "c" {[ "title" := VStr "B" ]} false) (inr []);
             EvProgress (Processed 2 2) ].
Proof. vm_compute. eexists _, _, _. repeat split; reflexivity. Qed.

(** * Further properties of the importer *)

(** ** transformData *)

Lemma transformData_lookup parsedData fieldMapping isUpdateMode j row :
  parsedData !! j = Some row ->
  transformData parsedData fieldMapping isUpdateMode !! j
  = Some (copy_entries row fieldMapping
            (if isUpdateMode && truthy (get row "id")
             then set_prop ∅ "id" (get row "id") else ∅)).
Proof.
  intros Hj. unfold transformData. by rewrite list_lookup_fmap, Hj.
Qed.




Lemma copy_entries_keep row (fieldMapping : list (string * string)) k :
  Forall (fun st => st.2 <> k) fieldMapping ->
  forall transformed : obj,
  copy_entries row fieldMapping transformed !! k = transformed !! k.
Proof.
  induction 1 as [|[source target] fieldMapping Hst _ IH]; intros tr; [done|].
  cbn [fold_left]. rewrite IH.
  destruct (_ && _); [|done]. by apply set_prop_other.
Qed.


(** X15. A mapping entry with a non-empty destination (other than
    [__proto__]) whose column the row has, and after which no entry has the
    same destination, decides that destination's key: the transformed row
    holds there the row's value for that column, whatever earlier entries
    wrote. *)
Theorem transformData_copies_the_last_mapped_column
    parsedData fm1 source target fm2 isUpdateMode j row :
  parsedData !! j = Some row ->
  target <> "" -> target <> "__proto__" ->
  get row source <> VUndefined ->
  Forall (fun st : string * string => st.2 <> target) fm2 ->
  exists transformed,
    transformData parsedData (fm1 ++ (source, target) :: fm2) isUpdateMode
      !! j = Some transformed
    /\ transformed !! target = Some (get row source).
Proof.
  intros Hj Ht Hp Hv Hfm2.
  eexists. split; [by apply transformData_lookup|].
  rewrite fold_left_app. cbn [fold_left].
  rewrite (copy_entries_keep row fm2 target Hfm2).
  rewrite (truthy_nonempty target Ht), bool_decide_eq_false_2 by done.
  cbn [negb andb]. unfold set_prop.
  rewrite bool_decide_eq_false_2 by done. apply lookup_insert_eq.
Qed.

(** ** The auto-mapping *)

Section AutoMappingFacts.

Variable toLowerCase : string -> string.

Lemma autoMapping_snoc headers header fields :
  autoMapping toLowerCase (headers ++ [header]) fields
  = match fields ≫= find (matches_header toLowerCase header) with
    | Some matchingField =>
        if bool_decide (header = "__proto__")
        then autoMapping toLowerCase headers fields
        else <[header := f_slug matchingField]>
               (autoMapping toLowerCase headers fields)
    | None => autoMapping toLowerCase headers fields
    end.
Proof. unfold autoMapping. by rewrite fold_left_app. Qed.

(** X16. The auto-mapping maps a header exactly when it is one of the file's
    headers (other than [__proto__]) and some field of the collection has
    this header, compared in lower case, as its slug or as its display name;
    its destination is then the slug of the first such field of the schema.
    So every destination it proposes is the slug of a field of the
    collection. *)
Theorem autoMapping_maps_headers_to_matching_fields headers fields :
  (forall header,
     autoMapping toLowerCase headers fields !! header
     = if bool_decide (header ∈ headers /\ header <> "__proto__")
       then f_slug <$> (fields ≫= find (matches_header toLowerCase header))
       else None)
  /\ (forall header slug,
        autoMapping toLowerCase headers fields !! header = Some slug ->
        header ∈ headers
        /\ exists fs f,
             fields = Some fs /\ f ∈ fs /\ f_slug f = slug
             /\ matches_header toLowerCase header f = true).
Proof.
  assert (Hchar : forall header,
     autoMapping toLowerCase headers fields !! header
     = if bool_decide (header ∈ headers /\ header <> "__proto__")
       then f_slug <$> (fields ≫= find (matches_header toLowerCase header))
       else None).
  { induction headers as [|h headers IH] using rev_ind; intros header.
    - rewrite bool_decide_eq_false_2; [done|].
      intros [Hin _]. by apply elem_of_nil in Hin.
    - rewrite autoMapping_snoc.
      destruct (decide (header = h)) as [->|Hne].
      + destruct (fields ≫= find (matches_header toLowerCase h))
          as [f|] eqn:Hf.
        * case_bool_decide as Hp.
          { subst h. rewrite IH, Hf.
            by rewrite !bool_decide_eq_false_2 by (by intros [_ ?]). }
          rewrite lookup_insert_eq, bool_decide_eq_true_2; [done|].
          split; [|done]. apply elem_of_app. right. left.
        * rewrite IH, Hf. by repeat case_bool_decide.
      + assert (Hiff : (header ∈ headers ++ [h] /\ header <> "__proto__")
                       <-> (header ∈ headers /\ header <> "__proto__")).
        { rewrite elem_of_app, list_elem_of_singleton. intuition congruence. }
        rewrite (bool_decide_ext _ _ Hiff), <- IH.
        destruct (fields ≫= find (matches_header toLowerCase h)); [|done].
        case_bool_decide; [done|]. by rewrite lookup_insert_ne. }
  split; [exact Hchar|].
  intros header slug Hs. rewrite Hchar in Hs.
  case_bool_decide as Hin; [|done]. split; [by destruct Hin|].
  destruct fields as [fs|]; [|done]. cbn in Hs.
  destruct (find _ fs) as [f|] eqn:Hf; [|done].
  injection Hs as <-. apply find_some in Hf as [Hin' Hm].
  exists fs, f. repeat split; try done. by apply list_elem_of_In.
Qed.

End AutoMappingFacts.

(** ** runImport, live *)

Section LiveImport.

Context {World Data : Type}.
Variable remote : World -> api_call -> World * (string + Data).
Variable data_items : Data -> option (list item).
Variable key_of_other : value -> string.

(** X17. A live create-only import cannot fail as a whole and needs no
    fuel: [runImport] always ends with live results, whose total is the
    number of parsed rows and whose successes and errors add up to it; the
    preview holds at most five answers; and the calls it sent are exactly
    one live create per transformed row, in order (no listing, no
    update). *)
Theorem live_create_import_creates_every_transformed_row
    fuel cid row rows fieldMapping isDryRun dryRunOverride w :
  (if bool_decide (dryRunOverride = VUndefined) then isDryRun
   else truthy dryRunOverride) = false ->
  exists r w' t,
    runImport remote data_items key_of_other fuel (Some cid)
      (Some (row :: rows)) fieldMapping isDryRun false dryRunOverride w
    = Some (Live r, w', t)
    /\ l_total r = length (row :: rows)
    /\ l_success r + length (l_errors r) = l_total r
    /\ length (l_preview r) = l_success r `min` 5
    /\ l_isUpdateMode r = false
    /\ (calls t).*1
       = (fun d => CreateItem cid d false)
           <$> transformData (row :: rows) fieldMapping false.
Proof.
  intros Hdry. unfold runImport. rewrite Hdry.
  set (td := transformData (row :: rows) fieldMapping false).
  assert (Hlen : length td = length (row :: rows))
    by (subst td; unfold transformData; by rewrite length_fmap).
  destruct (createItems_run remote cid td true w)
    as (report & t & Hrun & Hres & Herr & Htot & _).
  pose proof (createItems_calls remote cid td true w) as Hcalls.
  rewrite Hrun in Hcalls. cbn [snd] in Hcalls.
  rewrite Hrun. eexists _, _, _. split; [reflexivity|].
  cbn [l_total l_success l_errors l_preview l_isUpdateMode].
  split; [by rewrite Htot|]. split; [|split; [|split; [done|]]].
  - rewrite Htot, Hres, Herr. apply outcome_count.
    by rewrite length_replay, length_fmap.
  - rewrite length_fmap, length_take. lia.
  - rewrite Hcalls, fst_zip; [done|]. by rewrite length_replay.
Qed.

(** X18. A live upsert import whose fetch of the existing items fails ends
    with the error "Import failed: " followed by the message of the failure,
    and has sent no write. *)
Theorem live_upsert_import_fails_when_fetch_fails
    fuel cid row rows fieldMapping isDryRun dryRunOverride w e w1 t1 :
  (if bool_decide (dryRunOverride = VUndefined) then isDryRun
   else truthy dryRunOverride) = false ->
  getAllItems remote data_items fuel cid w = Some (Throw e, w1, t1) ->
  exists t,
    runImport remote data_items key_of_other fuel (Some cid)
      (Some (row :: rows)) fieldMapping isDryRun true dryRunOverride w
    = Some (ImportFailed ("Import failed: " +:+ e), w1, t)
    /\ row_calls t = [].
Proof.
  intros Hdry Hfetch. unfold runImport, upsertItems. rewrite Hdry.
  cbn [notify]. rewrite Hfetch.
  eexists. split; [reflexivity|].
  rewrite row_calls_app.
  by rewrite (getAllItems_loop_only_lists _ _ _ _ _ _ _ _ _ _ Hfetch).
Qed.

(** X19. A live upsert import whose fetch succeeds ends with live results:
    the total is the number of parsed rows, successes and errors add up to
    it, the updated and created counts add up to the successes, and the
    writes carry, in row order, the transformed rows without their [id]
    (the [id] that update mode keeps on a transformed row serves the
    matching only). *)
Theorem live_upsert_import_writes_rows_without_id
    fuel cid row rows fieldMapping isDryRun dryRunOverride w existing w1 t1 :
  (if bool_decide (dryRunOverride = VUndefined) then isDryRun
   else truthy dryRunOverride) = false ->
  getAllItems remote data_items fuel cid w = Some (Return existing, w1, t1) ->
  exists r w' t updated created,
    runImport remote data_items key_of_other fuel (Some cid)
      (Some (row :: rows)) fieldMapping isDryRun true dryRunOverride w
    = Some (Live r, w', t)
    /\ l_total r = length (row :: rows)
    /\ l_success r + length (l_errors r) = l_total r
    /\ l_counts r = Some (updated, created)
    /\ updated + created = l_success r
    /\ payload <$> (row_calls t).*1
       = (fun d => Some (delete "id" d))
           <$> transformData (row :: rows) fieldMapping true.
Proof.
  intros Hdry Hfetch. unfold runImport. rewrite Hdry.
  set (td := transformData (row :: rows) fieldMapping true).
  destruct (upsertItems_run remote data_items key_of_other fuel cid td true
              true w existing w1 t1 Hfetch)
    as (report & t & Hrun & Hres & Herr & Htot & Hupd & Hcre & Hcalls).
  rewrite Hrun. eexists _, _, _, _, _. split; [reflexivity|].
  cbn [l_total l_success l_errors l_counts].
  assert (Hlen : length td = length (row :: rows))
    by (subst td; unfold transformData; by rewrite length_fmap).
  assert (Hans : length (replay remote w1
                           (upsert_call key_of_other (build_lookups existing).1
                              (build_lookups existing).2 cid true <$> td)).1
                 = length td) by by rewrite length_replay, length_fmap.
  split; [by rewrite Htot|]. split; [|split; [reflexivity|split]].
  - rewrite Htot, Hres, Herr. by apply outcome_count.
  - rewrite Hupd, Hcre. pose proof (actions_split (u_results report)). lia.
  - rewrite Hcalls, fst_zip by by rewrite length_replay.
    rewrite <- list_fmap_compose. apply list_fmap_ext.
    intros _ d _. cbn [compose]. apply payload_upsert_call.
Qed.

End LiveImport.

(** ** Runs of the further properties *)

Lemma createItems_waits_after_successes_witness :
  (createItems scripted "c" four_rows true
     [inr []; inl "Too Many Requests"; inr []; inr []]).2
  = [ EvCall (CreateItem "c" {[ "title" := VStr "A" ]} false) (inr []);
      EvDelay 150;
      EvCall (CreateItem "c" {[ "title" := VStr "B" ]} false)
        (inl "Too Many Requests");
      EvCall (CreateItem "c" {[ "title" := VStr "C" ]} false) (inr []);
      EvDelay 150;
      EvCall (CreateItem "c" {[ "title" := VStr "D" ]} false) (inr []) ]
  /\ exists report w2 t,
       createItems scripted "c" four_rows true
         [inr []; inl "Too Many Requests"; inr []; inr []]
       = (Return report, w2, t)
       /\ (calls t).*1 = create_call "c" true <$> four_rows
       /\ t = create_events 4 0 (calls t)
       /\ delays_of t
          = (fun _ => 150)
              <$> List.filter (fun r => (r_index r <? 4 - 1)%nat)
                    (c_results report).
Proof.
  split; [reflexivity|].
  exact (createItems_waits_after_successes scripted "c" four_rows true
           [inr []; inl "Too Many Requests"; inr []; inr []]).
Defined.

Lemma getAllItems_only_lists_pages_in_order_witness :
  getAllItems scripted Some 3 "c" broken_listing
  = Some (Throw "Bad Gateway", [], broken_listing_run)
  /\ (calls broken_listing_run).*1
     = [ GetItems "c" (Some 100) None;
         GetItems "c" (Some 100) (Some 100);
         GetItems "c" (Some 100) (Some 200) ]
  /\ 1 <= length (calls broken_listing_run)
  /\ broken_listing_run
     = between (EvDelay 150)
         ((fun ca => EvCall ca.1 ca.2) <$> calls broken_listing_run)
  /\ row_calls broken_listing_run = []
  /\ progress_of broken_listing_run = [].
Proof.
  split; [reflexivity|].
  apply (getAllItems_only_lists_pages_in_order scripted Some 3 "c"
           broken_listing (Throw "Bad Gateway") [] broken_listing_run).
  reflexivity.
Defined.

Lemma getAllItems_throws_on_failed_page_witness :
  full_pages scripted Some "c" 0 [inr full_page; inl "Bad Gateway"]
    [full_page] [inl "Bad Gateway"]
  /\ scripted [inl "Bad Gateway"]
       (GetItems "c" (Some 100) (query_param (100 * length [full_page])))
     = ([], inl "Bad Gateway")
  /\ length [full_page] < 2
  /\ exists t,
       getAllItems scripted Some 2 "c" [inr full_page; inl "Bad Gateway"]
       = Some (Throw "Bad Gateway", [], t)
       /\ length (calls t) = S (length [full_page]).
Proof.
  assert (Hp : full_pages scripted Some "c" 0
                 [inr full_page; inl "Bad Gateway"] [full_page]
                 [inl "Bad Gateway"]).
  { apply (full_pages_cons scripted Some "c" 0
             [inr full_page; inl "Bad Gateway"] [inl "Bad Gateway"]
             full_page [] [inl "Bad Gateway"]);
      [reflexivity | vm_compute; lia | apply full_pages_nil]. }
  split; [exact Hp|]. split; [reflexivity|]. split; [simpl; lia|].
  apply (getAllItems_throws_on_failed_page scripted Some "c"
           [inr full_page; inl "Bad Gateway"] [full_page]
           [inl "Bad Gateway"] [] "Bad Gateway" 2 Hp);
    [reflexivity | simpl; lia].
Defined.

Lemma upsert_reports_progress_of_successes_witness :
  getAllItems scripted Some 1 "c" failing_script
  = Some (Return [], [inl "Too Many Requests"; inr []],
          [EvCall (GetItems "c" (Some 100) None) (inr [])])
  /\ exists report w2 t,
       upsertItems scripted Some no_key 1 "c" two_rows true true
         failing_script = Some (Return report, w2, t)
       /\ progress_of t
          = if true
            then Fetching :: Found (length (@nil item))
                 :: ((fun r => Processed (r_index r + 1) (length two_rows))
                       <$> u_results report)
            else [].
Proof.
  split; [reflexivity|].
  eapply (upsert_reports_progress_of_successes scripted Some no_key 1 "c"
            two_rows true true failing_script).
  reflexivity.
Defined.


Lemma upsert_aborts_when_fetch_fails_witness :
  getAllItems scripted Some 1 "c" [inl "Unauthorized"]
  = Some (Throw "Unauthorized", [],
          [EvCall (GetItems "c" (Some 100) None) (inl "Unauthorized")])
  /\ exists t,
       upsertItems scripted Some no_key 1 "c" two_rows true true
         [inl "Unauthorized"] = Some (Throw "Unauthorized", [], t)
       /\ calls t
          = calls [EvCall (GetItems "c" (Some 100) None)
                     (@inl string (list item) "Unauthorized")]
       /\ row_calls t = [].
Proof.
  split; [reflexivity|].
  eapply (upsert_aborts_when_fetch_fails scripted Some no_key 1 "c" two_rows
           true true [inl "Unauthorized"]).
  reflexivity.
Defined.

Lemma upsert_updates_by_id_witness :
  getAllItems fixed_store Some 1 "c" example_existing
  = Some (Return example_existing, example_existing,
          [EvCall (GetItems "c" (Some 100) None) (inr example_existing)])
  /\ example_rows !! 0 = Some {[ "id" := VStr "a1"; "title" := VStr "X" ]}
  /\ get ({[ "id" := VStr "a1"; "title" := VStr "X" ]} : obj) "id"
     = VStr "a1"
  /\ "a1" <> ""
  /\ "a1" ∈ item_id <$> example_existing
  /\ exists report w2 t answer,
       upsertItems fixed_store Some no_key 1 "c" example_rows true false
         example_existing = Some (Return report, w2, t)
       /\ row_calls t !! 0
          = Some (UpdateItem "c" (VStr "a1")
                    (delete "id"
                       ({[ "id" := VStr "a1"; "title" := VStr "X" ]} : obj))
                    true, answer).
Proof.
  assert (Hin : "a1" ∈ item_id <$> example_existing) by (simpl; left).
  split; [reflexivity|]. split; [reflexivity|]. split; [reflexivity|].
  split; [discriminate|]. split; [exact Hin|].
  eapply (upsert_updates_by_id fixed_store Some no_key 1 "c" example_rows
           true false example_existing example_existing example_existing
           _ 0 _ "a1");
    [reflexivity | reflexivity | reflexivity | discriminate | exact Hin].
Defined.

Lemma upsert_updates_last_item_with_slug_witness :
  let row : obj := {[ "slug" := VStr "y"; "title" := VStr "Y" ]} in
  getAllItems fixed_store Some 1 "c" example_existing
  = Some (Return ([Item "a1" None] ++ Item "other" (Some "y") :: []),
          example_existing,
          [EvCall (GetItems "c" (Some 100) None) (inr example_existing)])
  /\ example_rows !! 1 = Some row
  /\ (forall s, get row "id" = VStr s ->
        s ∉ item_id <$> ([Item "a1" None] ++ Item "other" (Some "y") :: []))
  /\ get row "slug" = VStr "y"
  /\ "y" <> "" /\ "y" <> "__proto__"
  /\ item_slug (Item "other" (Some "y")) = Some "y"
  /\ Forall (fun it' => item_slug it' <> Some "y") []
  /\ item_id (Item "other" (Some "y")) <> ""
  /\ exists report w2 t answer,
       upsertItems fixed_store Some no_key 1 "c" example_rows true false
         example_existing = Some (Return report, w2, t)
       /\ row_calls t !! 1
          = Some (UpdateItem "c" (VStr (item_id (Item "other" (Some "y"))))
                    (delete "id" row) true, answer).
Proof.
  intros row.
  assert (Hno : forall s, get row "id" = VStr s ->
            s ∉ item_id <$> ([Item "a1" None]
                               ++ Item "other" (Some "y") :: []))
    by (intros s Hs; discriminate Hs).
  repeat (split; [first [reflexivity | discriminate | exact Hno
                        | by constructor]|]).
  eapply (upsert_updates_last_item_with_slug fixed_store Some no_key 1 "c"
           example_rows true false example_existing [Item "a1" None]
           (Item "other" (Some "y")) [] example_existing _ 1 row "y");
    first [reflexivity | discriminate | exact Hno | by constructor].
Defined.

Lemma upsert_creates_unmatched_row_witness :
  let row : obj := {[ "title" := VStr "Z" ]} in
  getAllItems fixed_store Some 1 "c" example_existing
  = Some (Return example_existing, example_existing,
          [EvCall (GetItems "c" (Some 100) None) (inr example_existing)])
  /\ example_rows !! 2 = Some row
  /\ (forall s, get row "id" = VStr s -> s ∉ item_id <$> example_existing)
  /\ (truthy (get row "slug") = false
      \/ exists k, get row "slug" = VStr k
                   /\ Forall (fun it => item_slug it <> Some k)
                        example_existing
                   /\ k ∉ object_prototype_names)
  /\ exists report w2 t answer,
       upsertItems fixed_store Some no_key 1 "c" example_rows true false
         example_existing = Some (Return report, w2, t)
       /\ row_calls t !! 2
          = Some (CreateItem "c" (delete "id" row) (negb true), answer).
Proof.
  intros row.
  assert (Hno : forall s, get row "id" = VStr s ->
            s ∉ item_id <$> example_existing)
    by (intros s Hs; discriminate Hs).
  assert (Hslug : truthy (get row "slug") = false
                  \/ exists k, get row "slug" = VStr k
                       /\ Forall (fun it => item_slug it <> Some k)
                            example_existing
                       /\ k ∉ object_prototype_names)
    by (left; reflexivity).
  split; [reflexivity|]. split; [reflexivity|]. split; [exact Hno|].
  split; [exact Hslug|].
  eapply (upsert_creates_unmatched_row fixed_store Some no_key 1 "c"
           example_rows true false example_existing example_existing
           example_existing _ 2 row);
    [reflexivity | reflexivity | exact Hno | exact Hslug].
Defined.

Lemma upsert_decision_reads_only_id_and_slug_witness :
  let row : obj := {[ "title" := VStr "A" ]} in
  let row' : obj := {[ "title" := VStr "B" ]} in
  getAllItems fixed_store Some 1 "c" example_existing
  = Some (Return example_existing, example_existing,
          [EvCall (GetItems "c" (Some 100) None) (inr example_existing)])
  /\ two_rows !! 0 = Some row /\ two_rows !! 1 = Some row'
  /\ get row "id" = get row' "id" /\ get row "slug" = get row' "slug"
  /\ exists report w2 t c answer c' answer',
       upsertItems fixed_store Some no_key 1 "c" two_rows true false
         example_existing = Some (Return report, w2, t)
       /\ row_calls t !! 0 = Some (c, answer)
       /\ row_calls t !! 1 = Some (c', answer')
       /\ target_of c = target_of c'.
Proof.
  intros row row'.
  repeat (split; [reflexivity|]).
  eapply (upsert_decision_reads_only_id_and_slug fixed_store Some no_key 1
           "c" two_rows true false example_existing example_existing
           example_existing _ 0 1 row row'); reflexivity.
Defined.

Lemma upsert_of_keyless_rows_creates_like_createItems_witness :
  getAllItems fixed_store Some 1 "c" example_existing
  = Some (Return example_existing, example_existing,
          [EvCall (GetItems "c" (Some 100) None) (inr example_existing)])
  /\ Forall (fun row : obj => row !! "id" = None /\ row !! "slug" = None)
       two_rows
  /\ exists report w2 t,
       upsertItems fixed_store Some no_key 1 "c" two_rows true false
         example_existing = Some (Return report, w2, t)
       /\ (row_calls t).*1
          = (fun row => CreateItem "c" row (negb true)) <$> two_rows
       /\ forall w0, (calls (createItems fixed_store "c" two_rows true w0).2).*1
                     = (row_calls t).*1.
Proof.
  assert (Hrows : Forall (fun row : obj =>
                    row !! "id" = None /\ row !! "slug" = None) two_rows)
    by (repeat constructor).
  split; [reflexivity|]. split; [exact Hrows|].
  eapply (upsert_of_keyless_rows_creates_like_createItems fixed_store Some
           no_key 1 "c" two_rows true false example_existing
           example_existing example_existing _);
    [reflexivity | exact Hrows].
Defined.

Lemma transformData_copies_the_last_mapped_column_witness :
  let row : obj := {[ "Title" := VStr "X"; "Name" := VStr "N" ]} in
  [row] !! 0 = Some row
  /\ "name" <> "" /\ "name" <> "__proto__"
  /\ get row "Title" <> VUndefined
  /\ Forall (fun st : string * string => st.2 <> "name") [("Other", "slug")]
  /\ exists transformed,
       transformData [row]
         ([("Name", "name")] ++ ("Title", "name") :: [("Other", "slug")])
         false !! 0 = Some transformed
       /\ transformed !! "name" = Some (get row "Title").
Proof.
  intros row.
  assert (Hfm : Forall (fun st : string * string => st.2 <> "name")
                  [("Other", "slug")])
    by (repeat constructor; simpl; discriminate).
  split; [reflexivity|]. split; [discriminate|]. split; [discriminate|].
  split; [vm_compute; discriminate|]. split; [exact Hfm|].
  apply (transformData_copies_the_last_mapped_column [row]
           [("Name", "name")] "Title" "name" [("Other", "slug")] false 0
           row); [reflexivity | discriminate | discriminate
                 | vm_compute; discriminate | exact Hfm].
Defined.

Lemma live_create_import_creates_every_transformed_row_witness :
  (if bool_decide (VBool false = VUndefined) then true
   else truthy (VBool false)) = false
  /\ exists r w' t,
       runImport scripted Some no_key 0 (Some "c") (Some example_rows)
         [("title", "name")] true false (VBool false) failing_script
       = Some (Live r, w', t)
       /\ l_total r = length example_rows
       /\ l_success r + length (l_errors r) = l_total r
       /\ length (l_preview r) = l_success r `min` 5
       /\ l_isUpdateMode r = false
       /\ (calls t).*1
          = (fun d => CreateItem "c" d false)
              <$> transformData example_rows [("title", "name")] false.
Proof.
  split; [reflexivity|].
  eapply (live_create_import_creates_every_transformed_row scripted Some
           no_key 0 "c"
           {[ "id" := VStr "a1"; "title" := VStr "X" ]}
           [ {[ "slug" := VStr "y"; "title" := VStr "Y" ]};
             {[ "title" := VStr "Z" ]} ]
           [("title", "name")] true (VBool false) failing_script).
  reflexivity.
Defined.

Lemma live_upsert_import_fails_when_fetch_fails_witness :
  (if bool_decide (VBool false = VUndefined) then true
   else truthy (VBool false)) = false
  /\ getAllItems scripted Some 1 "c" [inl "Unauthorized"]
     = Some (Throw "Unauthorized", [],
             [EvCall (GetItems "c" (Some 100) None) (inl "Unauthorized")])
  /\ exists t,
       runImport scripted Some no_key 1 (Some "c") (Some example_rows)
         [("title", "name")] true true (VBool false) [inl "Unauthorized"]
       = Some (ImportFailed ("Import failed: " +:+ "Unauthorized"), [], t)
       /\ row_calls t = [].
Proof.
  split; [reflexivity|]. split; [reflexivity|].
  eapply (live_upsert_import_fails_when_fetch_fails scripted Some no_key 1
           "c"
           {[ "id" := VStr "a1"; "title" := VStr "X" ]}
           [ {[ "slug" := VStr "y"; "title" := VStr "Y" ]};
             {[ "title" := VStr "Z" ]} ]
           [("title", "name")] true (VBool false) [inl "Unauthorized"]
           "Unauthorized" [] _); reflexivity.
Defined.

Lemma live_upsert_import_writes_rows_without_id_witness :
  (if bool_decide (VBool false = VUndefined) then true
   else truthy (VBool false)) = false
  /\ getAllItems fixed_store Some 1 "c" example_existing
     = Some (Return example_existing, example_existing,
             [EvCall (GetItems "c" (Some 100) None) (inr example_existing)])
  /\ exists r w' t updated created,
       runImport fixed_store Some no_key 1 (Some "c") (Some example_rows)
         [("title", "name")] true true (VBool false) example_existing
       = Some (Live r, w', t)
       /\ l_total r = length example_rows
       /\ l_success r + length (l_errors r) = l_total r
       /\ l_counts r = Some (updated, created)
       /\ updated + created = l_success r
       /\ payload <$> (row_calls t).*1
          = (fun d => Some (delete "id" d))
              <$> transformData example_rows [("title", "name")] true.
Proof.
  split; [reflexivity|]. split; [reflexivity|].
  eapply (live_upsert_import_writes_rows_without_id fixed_store Some no_key 1
           "c"
           {[ "id" := VStr "a1"; "title" := VStr "X" ]}
           [ {[ "slug" := VStr "y"; "title" := VStr "Y" ]};
             {[ "title" := VStr "Z" ]} ]
           [("title", "name")] true (VBool false) example_existing
           example_existing example_existing _); reflexivity.
Defined.

Lemma upsert_tags_and_counts_match_the_calls_witness :
  getAllItems scripted Some 1 "c" failing_script
  = Some (Return [], [inl "Too Many Requests"; inr []],
          [EvCall (GetItems "c" (Some 100) None) (inr [])])
  /\ exists report w2 t,
       upsertItems scripted Some no_key 1 "c" two_rows true false
         failing_script = Some (Return report, w2, t)
       /\ (forall i row c d,
             two_rows !! i = Some row -> row_calls t !! i = Some (c, inr d) ->
             ResultEntry i d (if is_update c then Updated else Created)
             ∈ u_results report)
       /\ u_updated report
          = length (List.filter (fun ca => answered ca && is_update ca.1)
                      (row_calls t))
       /\ u_created report
          = length (List.filter
                      (fun ca => answered ca && negb (is_update ca.1))
                      (row_calls t)).
Proof.
  split; [reflexivity|].
  eapply (upsert_tags_and_counts_match_the_calls scripted Some no_key 1 "c"
            two_rows true false failing_script).
  reflexivity.
Defined.
